(** * openbankingorgukacco: a shallow embedding of the CLI

    The development follows the three source files of the repository:

    - [src/config.js]  the settings store (module [Config]);
    - [src/api.js]     the API client (module [Api]);
    - [src/index.js]   the command dispatcher (module [Cli]).

    Module [Js] holds the part of the JavaScript run time the program relies
    on: values parsed from JSON, truthiness, property reads, [String(x)],
    [JSON.stringify] and [parseInt].

    Modelling conventions.
    - A JavaScript string is a [string]; one [ascii] stands for one code
      unit, so [length] is [String.prototype.length].
    - A remote number is only ever tested for truthiness, compared with [0]
      and printed: [JNum] carries its canonical rendering
      ([Number.prototype.toString]), in which zero is ["0"].  It is finite:
      a number too large for a double, which [JSON.parse] reads as
      [Infinity], is left out.
    - An object parsed from JSON is the list of its properties in
      enumeration order, with distinct keys, none of which shadows a member
      of [Object.prototype].
    - Time stamps ([Date.now()], [tokenExpiry]) are integers.
    - A process is a function on a [World]: the settings as the store
      reads them, the calls of the store that wrote the settings file, the
      lines of [console.log], the lines of [console.error], what the
      spinner was told to do, and the requests handed to the HTTP library.
      The spinner draws on the terminal's error stream; its frames are not
      among the lines of [console.error].
    - A world is what a run has left when it has ended.  A request that
      never settles leaves the process waiting, and no statement below
      speaks of such a run.
    - The settings file on disk is absent or holds entries of the schema's
      types; the store fills in the schema's defaults when it is created
      and writes the file back when that changed anything. *)

From Stdlib Require Import String Ascii List ZArith Lia Bool.
From Stdlib Require Import DecimalString.
From Stdlib Require DecimalZ.
Import ListNotations.

Set Warnings "-register-all".
Local Open Scope list_scope.
Local Open Scope Z_scope.
Local Open Scope string_scope.

(* ================================================================== *)
(** * The JavaScript run time *)
(* ================================================================== *)

Module Js.

(** A value produced by [JSON.parse]. *)
Inductive json : Type :=
| JNull
| JBool (b : bool)
| JNum (repr : string)
| JStr (s : string)
| JArr (items : list json)
| JObj (props : list (string * json)).

(** [undefined] is the absent value. *)
Definition value : Type := option json.
Definition undefined : value := None.

(** What a [TypeError] complains about. *)
Inductive TypeFault : Type :=
| ReadOfNull (property : string)
| ReadOfUndefined (property : string)
| NotAFunction (callee : string).

(** A thrown object. *)
Inductive exn : Type :=
| Error (message : string)
| TypeError (fault : TypeFault).

(** An expression that either has a value or throws. *)
Inductive Result (A : Type) : Type :=
| Ok (a : A)
| Raise (e : exn).
Arguments Ok {A} a.
Arguments Raise {A} e.

Definition rbind {A B} (r : Result A) (k : A -> Result B) : Result B :=
  match r with
  | Ok a => k a
  | Raise e => Raise e
  end.

Fixpoint rmap {A B} (f : A -> Result B) (l : list A) : Result (list B) :=
  match l with
  | [] => Ok []
  | x :: r =>
      rbind (f x) (fun y => rbind (rmap f r) (fun ys => Ok (y :: ys)))
  end.

(** ** Strings *)

Definition chr (n : nat) : string := String (ascii_of_nat n) EmptyString.
Definition newline : string := chr 10.
Definition dquote : string := chr 34.

Definition is_empty (s : string) : bool :=
  match s with
  | EmptyString => true
  | String _ _ => false
  end.

Fixpoint join (sep : string) (l : list string) : string :=
  match l with
  | [] => ""
  | [x] => x
  | x :: r => x ++ sep ++ join sep r
  end.

Fixpoint repeat_string (s : string) (n : nat) : string :=
  match n with
  | O => ""
  | S k => s ++ repeat_string s k
  end.

(** [s.substring(0, n)] *)
Fixpoint substring0 (n : nat) (s : string) : string :=
  match n, s with
  | S k, String c r => String c (substring0 k r)
  | _, _ => ""
  end.

(** [s.padEnd(n)] *)
Definition padEnd (n : nat) (s : string) : string :=
  s ++ repeat_string " " (n - String.length s)%nat.

Definition nat_to_string (n : nat) : string :=
  NilZero.string_of_uint (Nat.to_uint n).

Definition Z_to_string (z : Z) : string :=
  NilZero.string_of_int (Z.to_int z).

(** ** Truthiness and property reads *)

Definition truthy (v : json) : bool :=
  match v with
  | JNull => false
  | JBool b => b
  | JNum r => negb (String.eqb r "0")
  | JStr s => negb (is_empty s)
  | JArr _ => true
  | JObj _ => true
  end.

Definition vtruthy (v : value) : bool :=
  match v with
  | None => false
  | Some j => truthy j
  end.

Definition string_truthy (s : string) : bool := negb (is_empty s).

(** [options.x] of an option that takes a string: truthy when given and
    not empty. *)
Definition opt_truthy (o : option string) : bool :=
  match o with
  | None => false
  | Some s => string_truthy s
  end.

Fixpoint assoc {A} (k : string) (l : list (string * A)) : option A :=
  match l with
  | [] => None
  | (k', v) :: r => if String.eqb k k' then Some v else assoc k r
  end.

(** [o[k] = v] on an object built by the program. *)
Fixpoint assign {A} (k : string) (v : A) (o : list (string * A))
  : list (string * A) :=
  match o with
  | [] => [(k, v)]
  | (k', v') :: r =>
      if String.eqb k k' then (k, v) :: r else (k', v') :: assign k v r
  end.

(** [j.k] for a receiver that is not [null], [k] an ordinary name. *)
Definition prop (j : json) (k : string) : value :=
  match j with
  | JObj props => assoc k props
  | _ => None
  end.

(** [j.k]: reading a property of [null] throws. *)
Definition member (j : json) (k : string) : Result value :=
  match j with
  | JNull => Raise (TypeError (ReadOfNull k))
  | _ => Ok (prop j k)
  end.

(** [v.k] where [v] may be [undefined]. *)
Definition vmember (v : value) (k : string) : Result value :=
  match v with
  | None => Raise (TypeError (ReadOfUndefined k))
  | Some j => member j k
  end.

(** [v?.k] *)
Definition member_opt (v : value) (k : string) : value :=
  match v with
  | None | Some JNull => None
  | Some j => prop j k
  end.

(** [v?.[0]]: the first element of an array, the first code unit of a
    string, the property ["0"] of an object. *)
Definition index0_opt (v : value) : value :=
  match v with
  | None | Some JNull => None
  | Some (JArr items) => hd_error items
  | Some (JStr (String c _)) => Some (JStr (String c EmptyString))
  | Some (JObj props) => assoc "0" props
  | Some _ => None
  end.

(** [a || b] with [b] defined *)
Definition or_else (a : value) (b : json) : json :=
  match a with
  | Some j => if truthy j then j else b
  | None => b
  end.

(** [a || b] *)
Definition or_value (a b : value) : value :=
  if vtruthy a then a else b.

(** ** [String(x)] *)

Fixpoint ToString (v : json) : string :=
  match v with
  | JNull => "null"
  | JBool true => "true"
  | JBool false => "false"
  | JNum r => r
  | JStr s => s
  | JArr items =>
      join "," (map (fun x => match x with
                              | JNull => ""
                              | _ => ToString x
                              end) items)
  | JObj _ => "[object Object]"
  end.

Definition vToString (v : value) : string :=
  match v with
  | None => "undefined"
  | Some j => ToString j
  end.

(** ** [JSON.stringify] *)

Definition hex_digit (n : nat) : string :=
  match n with
  | 0 => "0" | 1 => "1" | 2 => "2" | 3 => "3" | 4 => "4" | 5 => "5"
  | 6 => "6" | 7 => "7" | 8 => "8" | 9 => "9" | 10 => "a" | 11 => "b"
  | 12 => "c" | 13 => "d" | 14 => "e" | _ => "f"
  end%nat.

Definition quote_code_unit (c : ascii) : string :=
  let n := nat_of_ascii c in
  if Nat.eqb n 8 then "\b"
  else if Nat.eqb n 9 then "\t"
  else if Nat.eqb n 10 then "\n"
  else if Nat.eqb n 12 then "\f"
  else if Nat.eqb n 13 then "\r"
  else if Nat.eqb n 34 then "\" ++ dquote
  else if Nat.eqb n 92 then "\\"
  else if Nat.ltb n 32 then "\u00" ++ hex_digit (n / 16)%nat ++ hex_digit (n mod 16)%nat
  else String c EmptyString.

Fixpoint quote_body (s : string) : string :=
  match s with
  | EmptyString => ""
  | String c r => quote_code_unit c ++ quote_body r
  end.

Definition QuoteJSONString (s : string) : string :=
  dquote ++ quote_body s ++ dquote.

(** [SerializeJSONProperty] with the gap [gap] at indentation [indent]. *)
Fixpoint serialize (gap indent : string) (v : json) : string :=
  match v with
  | JNull => "null"
  | JBool true => "true"
  | JBool false => "false"
  | JNum r => r
  | JStr s => QuoteJSONString s
  | JArr items =>
      let stepback := indent in
      let indent := indent ++ gap in
      match map (serialize gap indent) items with
      | [] => "[]"
      | partial =>
          if is_empty gap then "[" ++ join "," partial ++ "]"
          else "[" ++ newline ++ indent
                   ++ join ("," ++ newline ++ indent) partial
                   ++ newline ++ stepback ++ "]"
      end
  | JObj props =>
      let stepback := indent in
      let indent := indent ++ gap in
      match map (fun kv =>
                   QuoteJSONString (fst kv)
                     ++ (if is_empty gap then ":" else ": ")
                     ++ serialize gap indent (snd kv)) props with
      | [] => "{}"
      | partial =>
          if is_empty gap then "{" ++ join "," partial ++ "}"
          else "{" ++ newline ++ indent
                   ++ join ("," ++ newline ++ indent) partial
                   ++ newline ++ stepback ++ "}"
      end
  end.

(** [JSON.stringify(v)] *)
Definition JSON_stringify (v : json) : string := serialize "" "" v.

(** [JSON.stringify(v, null, 2)] *)
Definition JSON_stringify2 (v : json) : string := serialize "  " "" v.

(** ** [parseInt] without a radix

    The result is [None] for [NaN], and otherwise the integer the digits
    denote.  The run time rounds that integer to the nearest number it can
    hold, so the two agree for digits that denote at most [2^53 - 1]; the
    statements that depend on the value keep to that range. *)

Definition is_white_space (c : ascii) : bool :=
  let n := nat_of_ascii c in
  (Nat.leb 9 n && Nat.leb n 13) || Nat.eqb n 32 || Nat.eqb n 160.

Fixpoint skip_white_space (s : string) : string :=
  match s with
  | String c r => if is_white_space c then skip_white_space r else s
  | EmptyString => s
  end.

Definition digit_value (c : ascii) : option Z :=
  let n := Z.of_nat (nat_of_ascii c) in
  if ((48 <=? n) && (n <=? 57))%Z then Some (n - 48)
  else if ((97 <=? n) && (n <=? 122))%Z then Some (n - 87)
  else if ((65 <=? n) && (n <=? 90))%Z then Some (n - 55)
  else None.

Fixpoint read_digits (radix : Z) (s : string) (acc : option Z) : option Z :=
  match s with
  | String c r =>
      match digit_value c with
      | Some d =>
          if (d <? radix)%Z
          then read_digits radix r
                 (Some (match acc with
                        | None => d
                        | Some a => a * radix + d
                        end))
          else acc
      | None => acc
      end
  | EmptyString => acc
  end.

Definition parseInt (s : string) : option Z :=
  let body := skip_white_space s in
  let '(sign, body) :=
    match body with
    | String "-" r => (-1, r)
    | String "+" r => (1, r)
    | _ => (1, body)
    end in
  let '(radix, body) :=
    match body with
    | String "0" (String "x" r) => (16, r)
    | String "0" (String "X" r) => (16, r)
    | _ => (10, body)
    end in
  option_map (Z.mul sign) (read_digits radix body None).

End Js.

Import Js.

(* ================================================================== *)
(** * src/config.js: the settings store *)
(* ================================================================== *)

Module Config.

(** The settings file, [{accessToken: string, tokenExpiry: number}]. *)
Record Settings : Type := mkSettings {
  accessToken : string;
  tokenExpiry : Z
}.

(** The [default] entries of the schema. *)
Definition defaults : Settings :=
  {| accessToken := ""; tokenExpiry := 0 |}.

(** The settings file as [new Conf({schema})] finds it on disk when the
    module is loaded: absent, or holding some of the schema's two entries,
    each of the schema's type. *)
Inductive File : Type :=
| Absent
| Present (accessToken : option string) (tokenExpiry : option Z).

(** The settings the store works with: the file's entries over the
    schema's defaults. *)
Definition load (file : File) : Settings :=
  match file with
  | Absent => defaults
  | Present token expiry =>
      {| accessToken := match token with
                        | Some t => t
                        | None => accessToken defaults
                        end;
         tokenExpiry := match expiry with
                        | Some n => n
                        | None => tokenExpiry defaults
                        end |}
  end.

(** The file holds both entries, so the defaults add nothing to it. *)
Definition complete (file : File) : bool :=
  match file with
  | Present (Some _) (Some _) => true
  | _ => false
  end.

(** The file that holds exactly [config]. *)
Definition on_disk (config : Settings) : File :=
  Present (Some (accessToken config)) (Some (tokenExpiry config)).

(** The two keys of the schema. *)
Inductive Key : Type :=
| KAccessToken
| KTokenExpiry.

(** What [config.get(key)] returns. *)
Definition Stored (key : Key) : Type :=
  match key with
  | KAccessToken => string
  | KTokenExpiry => Z
  end.

(** What the program passes to [config.set(key, _)]: a string, or a number
    that may be [NaN] ([None]). *)
Definition Given (key : Key) : Type :=
  match key with
  | KAccessToken => string
  | KTokenExpiry => option Z
  end.

Definition schema_violation : exn :=
  Error "Config schema violation: `tokenExpiry` must be number".

Definition getConfig (key : Key) (config : Settings) : Stored key :=
  match key with
  | KAccessToken => accessToken config
  | KTokenExpiry => tokenExpiry config
  end.

(** The store validates a written value against the schema; [NaN] is not a
    [number] for it and the write throws. *)
Definition setConfig (key : Key) : Given key -> Settings -> Result Settings :=
  match key with
  | KAccessToken => fun value config =>
      Ok {| accessToken := value; tokenExpiry := tokenExpiry config |}
  | KTokenExpiry => fun value config =>
      match value with
      | Some n => Ok {| accessToken := accessToken config; tokenExpiry := n |}
      | None => Raise schema_violation
      end
  end.

Definition getAllConfig (config : Settings) : Settings := config.

Definition clearConfig (config : Settings) : Settings := defaults.

Definition isConfigured (config : Settings) : bool :=
  let accessToken := getConfig KAccessToken config in
  negb (negb (string_truthy accessToken)).

(** [now] is [Date.now()]. *)
Definition hasValidToken (now : Z) (config : Settings) : bool :=
  let accessToken := getConfig KAccessToken config in
  let tokenExpiry := getConfig KTokenExpiry config in
  if negb (string_truthy accessToken) then false
  else (tokenExpiry >? now + 60000)%Z.

End Config.

(* ================================================================== *)
(** * The HTTP library as the program sees it *)
(* ================================================================== *)

Module Http.

(** The request configuration handed to [axios]. *)
Record Request : Type := mkRequest {
  method : string;
  url : string;
  headers : list (string * string);
  params : option (list (string * string));
  data : value
}.

Record Response : Type := mkResponse {
  status : Z;
  body : value
}.

(** A rejection: [error.response], whether [error.request] is set, and
    [error.message]. *)
Record AxiosError : Type := mkAxiosError {
  response : option Response;
  request : bool;
  message : string
}.

Inductive AxiosResult : Type :=
| Resolved (response : Response)
| Rejected (error : AxiosError).

End Http.

(* ================================================================== *)
(** * Processes *)
(* ================================================================== *)

Module Proc.

Inductive Style : Type := green | red | yellow | cyan | bold | dim.

(** What the program does not decide: how the terminal renders a style,
    the clock, the remote end, how the console shows a value that is not a
    string, the wording of the engine's type errors, the locale. *)
Record Env : Type := mkEnv {
  chalk : Style -> string -> string;
  Date_now : Z;
  axios : Http.Request -> Http.AxiosResult;
  inspect : json -> string;
  fault_message : TypeFault -> string;
  toLocaleString : Z -> string
}.

Inductive SpinnerEvent : Type :=
| SpinStart (text : string)
| SpinStop.

(** What a process has done so far.  [store] is the content of the
    settings file as the store reads it; [file_writes] lists the calls of
    the store that wrote the file, each with the content it left.
    [stdout] holds the lines of [console.log] and [stderr] the lines of
    [console.error].  The spinner draws on the terminal's error stream as
    well; what it draws is kept apart in [spinner], so [stderr] is the log
    of the program's own error lines and not all of the stream.
    [requests] lists the calls of [axios].  A world is what a run has left
    when it ends: a call that never settles leaves none. *)
Record World : Type := mkWorld {
  store : Config.Settings;
  stdout : list string;
  stderr : list string;
  spinner : list SpinnerEvent;
  requests : list Http.Request;
  file_writes : list Config.Settings
}.

(** How a computation ends: with a value, with a thrown object, or with
    [process.exit(code)]. *)
Inductive Outcome (A : Type) : Type :=
| Ret (a : A)
| Throw (e : exn)
| Exit (code : Z).
Arguments Ret {A} a.
Arguments Throw {A} e.
Arguments Exit {A} code.

Definition M (A : Type) : Type := World -> Outcome A * World.

Definition ret {A} (a : A) : M A := fun w => (Ret a, w).

Definition bind {A B} (m : M A) (k : A -> M B) : M B :=
  fun w =>
    match m w with
    | (Ret a, w') => k a w'
    | (Throw e, w') => (Throw e, w')
    | (Exit c, w') => (Exit c, w')
    end.

Definition throw {A} (e : exn) : M A := fun w => (Throw e, w).

Definition process_exit {A} (code : Z) : M A := fun w => (Exit code, w).

(** [try { m } catch (error) { h error }] *)
Definition try_catch {A} (m : M A) (h : exn -> M A) : M A :=
  fun w =>
    match m w with
    | (Throw e, w') => h e w'
    | r => r
    end.

Definition lift {A} (r : Result A) : M A :=
  match r with
  | Ok a => ret a
  | Raise e => throw e
  end.

(** The four ways the world changes besides the settings file. *)
Definition written (line : string) (w : World) : World :=
  {| store := store w;
     stdout := (stdout w ++ [line])%list;
     stderr := stderr w;
     spinner := spinner w;
     requests := requests w;
     file_writes := file_writes w |}.

Definition complained (line : string) (w : World) : World :=
  {| store := store w;
     stdout := stdout w;
     stderr := (stderr w ++ [line])%list;
     spinner := spinner w;
     requests := requests w;
     file_writes := file_writes w |}.

Definition spun (e : SpinnerEvent) (w : World) : World :=
  {| store := store w;
     stdout := stdout w;
     stderr := stderr w;
     spinner := (spinner w ++ [e])%list;
     requests := requests w;
     file_writes := file_writes w |}.

Definition sent (config : Http.Request) (w : World) : World :=
  {| store := store w;
     stdout := stdout w;
     stderr := stderr w;
     spinner := spinner w;
     requests := (requests w ++ [config])%list;
     file_writes := file_writes w |}.

(** A call of the store that writes the settings file: the file holds
    [config] when the call returns. *)
Definition saved (config : Config.Settings) (w : World) : World :=
  {| store := config;
     stdout := stdout w;
     stderr := stderr w;
     spinner := spinner w;
     requests := requests w;
     file_writes := (file_writes w ++ [config])%list |}.

Definition console_log (line : string) : M unit :=
  fun w => (Ret tt, written line w).

Definition console_error (line : string) : M unit :=
  fun w => (Ret tt, complained line w).

Definition spin (e : SpinnerEvent) : M unit :=
  fun w => (Ret tt, spun e w).

(** [await axios(config)] *)
Definition send (env : Env) (config : Http.Request) : M Http.AxiosResult :=
  fun w => (Ret (axios env config), sent config w).

Definition read_store {A} (f : Config.Settings -> A) : M A :=
  fun w => (Ret (f (store w)), w).

Definition write_store (f : Config.Settings -> Result Config.Settings)
  : M unit :=
  fun w =>
    match f (store w) with
    | Ok s => (Ret tt, saved s w)
    | Raise e => (Throw e, w)
    end.

(** [error.message] *)
Definition message_of (env : Env) (e : exn) : string :=
  match e with
  | Error message => message
  | TypeError fault => fault_message env fault
  end.

(** [console.log(label, x)]: a string is written as it is, any other value
    the way the console inspects it. *)
Definition shown (env : Env) (x : json) : string :=
  match x with
  | JStr s => s
  | _ => inspect env x
  end.

Definition console_log2 (env : Env) (label : string) (x : json) : M unit :=
  console_log (label ++ " " ++ shown env x).

End Proc.

Declare Scope proc_scope.
Delimit Scope proc_scope with proc.
Notation "x <- m ;; k" := (Proc.bind m (fun x => k))
  (at level 61, m at next level, right associativity) : proc_scope.
Notation "m ;; k" := (Proc.bind m (fun _ => k))
  (at level 61, right associativity) : proc_scope.

(* ================================================================== *)
(** * src/api.js: the API client *)
(* ================================================================== *)

Module Api.
Import Proc Http.
Local Open Scope proc_scope.

Definition BASE_URL : string :=
  "https://api.openbanking.org.uk/open-banking/v3.1/aisp".

Definition null : value := Some JNull.

Definition not_configured : exn :=
  Error "Access token not configured. Run: openbankingorgukacco config set --token <token>".
Definition authentication_failed : exn :=
  Error "Authentication failed. Check your access token.".
Definition access_forbidden : exn :=
  Error "Access forbidden. Check your API permissions.".
Definition not_found : exn :=
  Error "Resource not found.".
Definition rate_limited : exn :=
  Error "Rate limit exceeded. Please wait before retrying.".
Definition no_response : exn :=
  Error "No response from Open Banking API. Check your internet connection.".

(** [data?.message || data?.error || JSON.stringify(data)] *)
Definition remote_message (data : value) : value :=
  or_value (or_value (member_opt data "message") (member_opt data "error"))
           (option_map (fun d => JStr (JSON_stringify d)) data).

(** Every branch of [handleApiError] throws; the result is the object it
    throws. *)
Definition handleApiError (error : AxiosError) : exn :=
  match response error with
  | Some r =>
      let status := status r in
      let data := body r in
      if (status =? 401)%Z then authentication_failed
      else if (status =? 403)%Z then access_forbidden
      else if (status =? 404)%Z then not_found
      else if (status =? 429)%Z then rate_limited
      else
        let message := remote_message data in
        Error ("API Error (" ++ Z_to_string status ++ "): "
                 ++ vToString message)
  | None =>
      if request error then no_response
      else Error (message error)
  end.

(** The [config] object [apiRequest] builds. *)
Definition request_config (accessToken method endpoint : string)
    (data : value) (params : option (list (string * string)))
  : Request :=
  {| method := method;
     url := BASE_URL ++ endpoint;
     headers := [ ("Authorization", "Bearer " ++ accessToken);
                  ("Accept", "application/json");
                  ("Content-Type", "application/json") ];
     params := params;
     data := if vtruthy data then data else undefined |}.

(** Make an authenticated API request. *)
Definition apiRequest (env : Env) (method endpoint : string)
    (data : value) (params : option (list (string * string))) : M value :=
  accessToken <- read_store (Config.getConfig Config.KAccessToken) ;;
  if negb (string_truthy accessToken) then throw not_configured
  else
    let config := request_config accessToken method endpoint data params in
    result <- send env config ;;
    match result with
    | Resolved response => ret (body response)
    | Rejected error => throw (handleApiError error)
    end.

(** [if (x) o[k] = x] *)
Definition assign_if (k : string) (x : option string)
    (o : list (string * string)) : list (string * string) :=
  match x with
  | Some v => if string_truthy v then assign k v o else o
  | None => o
  end.

(** The destructured argument [{ fromDate, toDate }]. *)
Record DateRange : Type := mkDateRange {
  fromDate : option string;
  toDate : option string
}.

(** [data.Data?.Name || []] *)
Definition named_array (data : value) (name : string) : Result json :=
  rbind (vmember data "Data") (fun Data =>
    Ok (or_else (member_opt Data name) (JArr []))).

(** [data.Data?.Name?.[0] || null] *)
Definition first_of (data : value) (name : string) : Result json :=
  rbind (vmember data "Data") (fun Data =>
    Ok (or_else (index0_opt (member_opt Data name)) JNull)).

(** ** Accounts *)

Definition listAccounts (env : Env) : M json :=
  data <- apiRequest env "GET" "/accounts" null None ;;
  lift (named_array data "Account").

Definition getAccount (env : Env) (accountId : string) : M json :=
  data <- apiRequest env "GET" ("/accounts/" ++ accountId) null None ;;
  lift (first_of data "Account").

Definition getAccountBalances (env : Env) (accountId : string) : M json :=
  data <- apiRequest env "GET" ("/accounts/" ++ accountId ++ "/balances")
            null None ;;
  lift (named_array data "Balance").

Definition getAccountTransactions (env : Env) (accountId : string)
    (range : DateRange) : M json :=
  let params := [] in
  let params := assign_if "fromBookingDateTime" (fromDate range) params in
  let params := assign_if "toBookingDateTime" (toDate range) params in
  data <- apiRequest env "GET" ("/accounts/" ++ accountId ++ "/transactions")
            null (Some params) ;;
  lift (named_array data "Transaction").

(** ** Balances *)

Definition listBalances (env : Env) : M json :=
  data <- apiRequest env "GET" "/balances" null None ;;
  lift (named_array data "Balance").

(** ** Transactions *)

Definition listTransactions (env : Env) (range : DateRange) : M json :=
  let params := [] in
  let params := assign_if "fromBookingDateTime" (fromDate range) params in
  let params := assign_if "toBookingDateTime" (toDate range) params in
  data <- apiRequest env "GET" "/transactions" null (Some params) ;;
  lift (named_array data "Transaction").

Definition getTransaction (env : Env) (accountId transactionId : string)
  : M json :=
  data <- apiRequest env "GET"
            ("/accounts/" ++ accountId ++ "/transactions/" ++ transactionId)
            null None ;;
  lift (first_of data "Transaction").

(** ** Beneficiaries *)

Definition listBeneficiaries (env : Env) : M json :=
  data <- apiRequest env "GET" "/beneficiaries" null None ;;
  lift (named_array data "Beneficiary").

Definition getAccountBeneficiaries (env : Env) (accountId : string)
  : M json :=
  data <- apiRequest env "GET"
            ("/accounts/" ++ accountId ++ "/beneficiaries") null None ;;
  lift (named_array data "Beneficiary").

(** ** Direct debits *)

Definition listDirectDebits (env : Env) : M json :=
  data <- apiRequest env "GET" "/direct-debits" null None ;;
  lift (named_array data "DirectDebit").

Definition getAccountDirectDebits (env : Env) (accountId : string)
  : M json :=
  data <- apiRequest env "GET"
            ("/accounts/" ++ accountId ++ "/direct-debits") null None ;;
  lift (named_array data "DirectDebit").

(** ** Standing orders *)

Definition listStandingOrders (env : Env) : M json :=
  data <- apiRequest env "GET" "/standing-orders" null None ;;
  lift (named_array data "StandingOrder").

Definition getAccountStandingOrders (env : Env) (accountId : string)
  : M json :=
  data <- apiRequest env "GET"
            ("/accounts/" ++ accountId ++ "/standing-orders") null None ;;
  lift (named_array data "StandingOrder").

(** ** Statements *)

Definition listStatements (env : Env) (accountId : string) : M json :=
  data <- apiRequest env "GET"
            ("/accounts/" ++ accountId ++ "/statements") null None ;;
  lift (named_array data "Statement").

Definition getStatement (env : Env) (accountId statementId : string)
  : M json :=
  data <- apiRequest env "GET"
            ("/accounts/" ++ accountId ++ "/statements/" ++ statementId)
            null None ;;
  lift (first_of data "Statement").

Definition getStatementTransactions (env : Env)
    (accountId statementId : string) : M json :=
  data <- apiRequest env "GET"
            ("/accounts/" ++ accountId ++ "/statements/" ++ statementId
               ++ "/transactions") null None ;;
  lift (named_array data "Transaction").

End Api.

(* ================================================================== *)
(** * src/index.js: the command dispatcher *)
(* ================================================================== *)

Module Cli.
Import Proc.
Local Open Scope proc_scope.

(** ** Helpers *)

(** The three glyphs the program prints; their length is never taken. *)
Definition check_mark : string := "✓".
Definition cross_mark : string := "✗".
Definition box_line : string := "─".

Definition printSuccess (env : Env) (message : string) : M unit :=
  console_log (chalk env green check_mark ++ " " ++ message).

Definition printError (env : Env) (message : string) : M unit :=
  console_error (chalk env red cross_mark ++ " " ++ message).

(** A column of a table: [{ key, label, format }]. *)
Record Column : Type := mkColumn {
  key : string;
  label : string;
  format : option (value -> json -> Result string)
}.

Definition col (key label : string) : Column :=
  {| key := key; label := label; format := None |}.

Definition colf (key label : string)
    (format : value -> json -> Result string) : Column :=
  {| key := key; label := label; format := Some format |}.

(** [String(col.format ? col.format(row[col.key], row)
                       : (row[col.key] ?? ''))] *)
Definition cell (c : Column) (row : json) : Result string :=
  rbind (member row (key c)) (fun v =>
    match format c with
    | Some f => f v row
    | None =>
        Ok (match v with
            | None | Some JNull => ""
            | Some j => ToString j
            end)
    end).

(** [data.length === 0] for a truthy [data]. *)
Definition length_is_zero (data : json) : bool :=
  match data with
  | JArr items => Nat.eqb (List.length items) 0
  | JStr s => is_empty s
  | JObj props =>
      match assoc "length" props with
      | Some (JNum r) => String.eqb r "0"
      | _ => false
      end
  | _ => false
  end.

(** The rows [data.forEach] visits; anything but an array has no
    [forEach]. *)
Definition forEach (data : json) : Result (list json) :=
  match data with
  | JArr items => Ok items
  | _ => Raise (TypeError (NotAFunction "data.forEach"))
  end.

Definition Widths : Type := list (string * nat).

(** [widths[k]], read only after it was set. *)
Definition width_of (widths : Widths) (k : string) : nat :=
  match assoc k widths with
  | Some n => n
  | None => 0%nat
  end.

Fixpoint measure_rows (c : Column) (rows : list json) (widths : Widths)
  : Result Widths :=
  match rows with
  | [] => Ok widths
  | row :: rest =>
      rbind (cell c row) (fun val =>
        let widths :=
          if Nat.ltb (width_of widths (key c)) (String.length val)
          then assign (key c) (String.length val) widths
          else widths in
        measure_rows c rest widths)
  end.

Fixpoint measure (data : json) (columns : list Column) (widths : Widths)
  : Result Widths :=
  match columns with
  | [] => Ok widths
  | c :: rest =>
      let widths := assign (key c) (String.length (label c)) widths in
      rbind (forEach data) (fun rows =>
      rbind (measure_rows c rows widths) (fun widths =>
        let widths :=
          assign (key c) (Nat.min (width_of widths (key c)) 40) widths in
        measure data rest widths))
  end.

Definition row_line (columns : list Column) (widths : Widths) (row : json)
  : Result string :=
  rbind (rmap (fun c =>
                 rbind (cell c row) (fun val =>
                   Ok (padEnd (width_of widths (key c))
                         (substring0 (width_of widths (key c)) val))))
              columns)
        (fun cells => Ok (join "  " cells)).

Fixpoint print_rows (columns : list Column) (widths : Widths)
    (rows : list json) : M unit :=
  match rows with
  | [] => ret tt
  | row :: rest =>
      line <- lift (row_line columns widths row) ;;
      console_log line ;;
      print_rows columns widths rest
  end.

Definition no_results : string := "No results found.".

Definition printTable (env : Env) (data : json) (columns : list Column)
  : M unit :=
  if negb (truthy data) || length_is_zero data then
    console_log (chalk env yellow no_results)
  else
    widths <- lift (measure data columns []) ;;
    let header :=
      join "  " (map (fun c => padEnd (width_of widths (key c)) (label c))
                     columns) in
    console_log (chalk env bold (chalk env cyan header)) ;;
    console_log (chalk env dim
                   (repeat_string box_line (String.length header))) ;;
    rows <- lift (forEach data) ;;
    print_rows columns widths rows ;;
    console_log (chalk env dim
                   (newline ++ nat_to_string (List.length rows)
                      ++ " result(s)")).

Definition printJson (data : json) : M unit :=
  console_log (JSON_stringify2 data).

(** [ora(message).start()], then [fn], then [spinner.stop()] on either
    way out.  What the spinner draws goes to the terminal's error stream;
    it is logged in [spinner], apart from the lines of [console.error]. *)
Definition withSpinner {A} (message : string) (fn : M A) : M A :=
  spin (SpinStart message) ;;
  try_catch
    (result <- fn ;;
     spin SpinStop ;;
     ret result)
    (fun error =>
     spin SpinStop ;;
     throw error).

Definition requireAuth (env : Env) : M unit :=
  configured <- read_store Config.isConfigured ;;
  if negb configured then
    printError env "Access token not configured." ;;
    console_log (newline ++ "Run the following to configure:") ;;
    console_log (chalk env cyan
                   "  openbankingorgukacco config set --token <token>") ;;
    process_exit 1
  else ret tt.

(** The handler of every [catch (error)] block. *)
Definition report (env : Env) (error : exn) : M unit :=
  printError env (message_of env error) ;;
  process_exit 1.

(** ** Column formatters *)

(** [v?.substring(0, 10)] *)
Definition substring10 (v : value) : Result (option string) :=
  match v with
  | None | Some JNull => Ok None
  | Some (JStr s) => Ok (Some (substring0 10 s))
  | Some _ => Raise (TypeError (NotAFunction "v?.substring"))
  end.

(** [(v) => v?.substring(0, 10) + '...'] *)
Definition format_id (v : value) (row : json) : Result string :=
  rbind (substring10 v) (fun r =>
    Ok (match r with
        | Some s => s
        | None => "undefined"
        end ++ "...")).

(** [(v) => v?.substring(0, 10) || ''] *)
Definition format_date (v : value) (row : json) : Result string :=
  rbind (substring10 v) (fun r =>
    Ok (match r with
        | Some s => s
        | None => ""
        end)).

(** [(v, row) => `${v?.Amount || '0.00'} ${v?.Currency || ''}`] *)
Definition format_amount (v : value) (row : json) : Result string :=
  Ok (ToString (or_else (member_opt v "Amount") (JStr "0.00"))
        ++ " " ++ ToString (or_else (member_opt v "Currency") (JStr ""))) .

(** ** config *)

Definition config_set (env : Env) (token expiry : option string) : M unit :=
  match token with
  | Some t =>
      if string_truthy t then
        write_store (Config.setConfig Config.KAccessToken t) ;;
        printSuccess env "Access token set"
      else ret tt
  | None => ret tt
  end ;;
  match expiry with
  | Some e =>
      if string_truthy e then
        write_store (Config.setConfig Config.KTokenExpiry (parseInt e)) ;;
        printSuccess env "Token expiry set"
      else ret tt
  | None => ret tt
  end ;;
  if negb (opt_truthy token) && negb (opt_truthy expiry) then
    printError env "No options provided. Use --token or --expiry"
  else ret tt.

Definition config_show (env : Env) : M unit :=
  accessToken <- read_store (Config.getConfig Config.KAccessToken) ;;
  let hasToken := negb (negb (string_truthy accessToken)) in
  tokenExpiry <- read_store (Config.getConfig Config.KTokenExpiry) ;;
  console_log
    (chalk env bold
       (newline ++ "Open Banking UK Account & Transaction CLI Configuration"
          ++ newline)) ;;
  console_log
    ("Access Token: " ++ " "
       ++ (if hasToken then chalk env green "set"
           else chalk env red "not set")) ;;
  (if negb (tokenExpiry =? 0)%Z then
     let expiry := toLocaleString env tokenExpiry in
     let isValid := (tokenExpiry >? Date_now env)%Z in
     console_log
       ("Token Expiry: " ++ " "
          ++ (if isValid then chalk env green expiry
              else chalk env red ("expired (" ++ expiry ++ ")")))
   else ret tt) ;;
  console_log "".

Definition config_clear (env : Env) : M unit :=
  write_store (fun config => Ok (Config.clearConfig config)) ;;
  printSuccess env "Configuration cleared".

(** ** accounts *)

Definition accounts_list (env : Env) (json_flag : bool) : M unit :=
  requireAuth env ;;
  try_catch
    (accounts <- withSpinner "Fetching accounts..." (Api.listAccounts env) ;;
     if json_flag then printJson accounts
     else
       printTable env accounts
         [ col "AccountId" "ID";
           col "Nickname" "Nickname";
           col "Currency" "Currency";
           col "AccountType" "Type";
           col "AccountSubType" "SubType" ])
    (report env).

Definition accounts_get (env : Env) (accountId : string) (json_flag : bool)
  : M unit :=
  requireAuth env ;;
  try_catch
    (account <- withSpinner "Fetching account..."
                  (Api.getAccount env accountId) ;;
     if json_flag then printJson account
     else
       console_log
         (chalk env bold (newline ++ "Account Details" ++ newline)) ;;
       id <- lift (member account "AccountId") ;;
       console_log2 env "Account ID:  "
         (JStr (chalk env cyan (ToString (or_else id (JStr accountId))))) ;;
       nickname <- lift (member account "Nickname") ;;
       console_log2 env "Nickname:    " (or_else nickname (JStr "N/A")) ;;
       currency <- lift (member account "Currency") ;;
       console_log2 env "Currency:    " (or_else currency (JStr "N/A")) ;;
       type <- lift (member account "AccountType") ;;
       console_log2 env "Type:        " (or_else type (JStr "N/A")) ;;
       subtype <- lift (member account "AccountSubType") ;;
       console_log2 env "SubType:     " (or_else subtype (JStr "N/A")))
    (report env).

Definition accounts_balances (env : Env) (accountId : string)
    (json_flag : bool) : M unit :=
  requireAuth env ;;
  try_catch
    (balances <- withSpinner "Fetching balances..."
                   (Api.getAccountBalances env accountId) ;;
     if json_flag then printJson balances
     else
       printTable env balances
         [ col "Type" "Type";
           colf "Amount" "Amount" format_amount;
           col "CreditDebitIndicator" "Indicator";
           col "DateTime" "Date Time" ])
    (report env).

Definition accounts_transactions (env : Env) (accountId : string)
    (from to : option string) (json_flag : bool) : M unit :=
  requireAuth env ;;
  try_catch
    (transactions <- withSpinner "Fetching transactions..."
                       (Api.getAccountTransactions env accountId
                          {| Api.fromDate := from; Api.toDate := to |}) ;;
     if json_flag then printJson transactions
     else
       printTable env transactions
         [ colf "TransactionId" "ID" format_id;
           colf "BookingDateTime" "Date" format_date;
           colf "Amount" "Amount" format_amount;
           col "CreditDebitIndicator" "Type";
           col "Status" "Status" ])
    (report env).

(** ** balances *)

Definition balances_list (env : Env) (json_flag : bool) : M unit :=
  requireAuth env ;;
  try_catch
    (balances <- withSpinner "Fetching balances..." (Api.listBalances env) ;;
     if json_flag then printJson balances
     else
       printTable env balances
         [ col "AccountId" "Account ID";
           col "Type" "Type";
           colf "Amount" "Amount" format_amount;
           col "CreditDebitIndicator" "Indicator" ])
    (report env).

(** ** transactions *)

Definition transactions_list (env : Env) (from to : option string)
    (json_flag : bool) : M unit :=
  requireAuth env ;;
  try_catch
    (transactions <- withSpinner "Fetching transactions..."
                       (Api.listTransactions env
                          {| Api.fromDate := from; Api.toDate := to |}) ;;
     if json_flag then printJson transactions
     else
       printTable env transactions
         [ col "AccountId" "Account";
           colf "TransactionId" "ID" format_id;
           colf "BookingDateTime" "Date" format_date;
           colf "Amount" "Amount" format_amount;
           col "CreditDebitIndicator" "Type" ])
    (report env).

Definition transactions_get (env : Env) (accountId transactionId : string)
    (json_flag : bool) : M unit :=
  requireAuth env ;;
  try_catch
    (transaction <- withSpinner "Fetching transaction..."
                      (Api.getTransaction env accountId transactionId) ;;
     if json_flag then printJson transaction
     else
       console_log
         (chalk env bold (newline ++ "Transaction Details" ++ newline)) ;;
       id <- lift (member transaction "TransactionId") ;;
       console_log2 env "Transaction ID:  "
         (JStr (chalk env cyan
                  (ToString (or_else id (JStr transactionId))))) ;;
       account <- lift (member transaction "AccountId") ;;
       console_log2 env "Account ID:      "
         (or_else account (JStr accountId)) ;;
       amount <- lift (member transaction "Amount") ;;
       amount' <- lift (member transaction "Amount") ;;
       console_log2 env "Amount:          "
         (JStr (ToString (or_else (member_opt amount "Amount")
                            (JStr "0.00"))
                  ++ " "
                  ++ ToString (or_else (member_opt amount' "Currency")
                                 (JStr "")))) ;;
       indicator <- lift (member transaction "CreditDebitIndicator") ;;
       console_log2 env "Type:            "
         (or_else indicator (JStr "N/A")) ;;
       status <- lift (member transaction "Status") ;;
       console_log2 env "Status:          " (or_else status (JStr "N/A")) ;;
       booked <- lift (member transaction "BookingDateTime") ;;
       console_log2 env "Booking Date:    " (or_else booked (JStr "N/A")))
    (report env).

(** ** beneficiaries *)

Definition beneficiaries_list (env : Env) (json_flag : bool) : M unit :=
  requireAuth env ;;
  try_catch
    (beneficiaries <- withSpinner "Fetching beneficiaries..."
                        (Api.listBeneficiaries env) ;;
     if json_flag then printJson beneficiaries
     else
       printTable env beneficiaries
         [ col "AccountId" "Account";
           col "BeneficiaryId" "ID";
           col "Reference" "Reference" ])
    (report env).

Definition beneficiaries_account (env : Env) (accountId : string)
    (json_flag : bool) : M unit :=
  requireAuth env ;;
  try_catch
    (beneficiaries <- withSpinner "Fetching beneficiaries..."
                        (Api.getAccountBeneficiaries env accountId) ;;
     if json_flag then printJson beneficiaries
     else
       printTable env beneficiaries
         [ col "BeneficiaryId" "ID";
           col "Reference" "Reference" ])
    (report env).

(** ** direct-debits *)

Definition direct_debits_list (env : Env) (json_flag : bool) : M unit :=
  requireAuth env ;;
  try_catch
    (directDebits <- withSpinner "Fetching direct debits..."
                       (Api.listDirectDebits env) ;;
     if json_flag then printJson directDebits
     else
       printTable env directDebits
         [ col "AccountId" "Account";
           col "DirectDebitId" "ID";
           col "MandateIdentification" "Mandate";
           col "DirectDebitStatusCode" "Status" ])
    (report env).

Definition direct_debits_account (env : Env) (accountId : string)
    (json_flag : bool) : M unit :=
  requireAuth env ;;
  try_catch
    (directDebits <- withSpinner "Fetching direct debits..."
                       (Api.getAccountDirectDebits env accountId) ;;
     if json_flag then printJson directDebits
     else
       printTable env directDebits
         [ col "DirectDebitId" "ID";
           col "MandateIdentification" "Mandate";
           col "DirectDebitStatusCode" "Status" ])
    (report env).

(** ** standing-orders *)

Definition standing_orders_list (env : Env) (json_flag : bool) : M unit :=
  requireAuth env ;;
  try_catch
    (standingOrders <- withSpinner "Fetching standing orders..."
                         (Api.listStandingOrders env) ;;
     if json_flag then printJson standingOrders
     else
       printTable env standingOrders
         [ col "AccountId" "Account";
           col "StandingOrderId" "ID";
           col "Frequency" "Frequency";
           col "Reference" "Reference" ])
    (report env).

Definition standing_orders_account (env : Env) (accountId : string)
    (json_flag : bool) : M unit :=
  requireAuth env ;;
  try_catch
    (standingOrders <- withSpinner "Fetching standing orders..."
                         (Api.getAccountStandingOrders env accountId) ;;
     if json_flag then printJson standingOrders
     else
       printTable env standingOrders
         [ col "StandingOrderId" "ID";
           col "Frequency" "Frequency";
           col "Reference" "Reference" ])
    (report env).

(** ** statements *)

Definition statements_list (env : Env) (accountId : string)
    (json_flag : bool) : M unit :=
  requireAuth env ;;
  try_catch
    (statements <- withSpinner "Fetching statements..."
                     (Api.listStatements env accountId) ;;
     if json_flag then printJson statements
     else
       printTable env statements
         [ col "StatementId" "ID";
           col "Type" "Type";
           colf "StartDateTime" "Start" format_date;
           colf "EndDateTime" "End" format_date ])
    (report env).

Definition statements_get (env : Env) (accountId statementId : string)
    (json_flag : bool) : M unit :=
  requireAuth env ;;
  try_catch
    (statement <- withSpinner "Fetching statement..."
                    (Api.getStatement env accountId statementId) ;;
     if json_flag then printJson statement
     else
       console_log
         (chalk env bold (newline ++ "Statement Details" ++ newline)) ;;
       id <- lift (member statement "StatementId") ;;
       console_log2 env "Statement ID: "
         (JStr (chalk env cyan
                  (ToString (or_else id (JStr statementId))))) ;;
       type <- lift (member statement "Type") ;;
       console_log2 env "Type:         " (or_else type (JStr "N/A")) ;;
       start <- lift (member statement "StartDateTime") ;;
       console_log2 env "Start Date:   " (or_else start (JStr "N/A")) ;;
       finish <- lift (member statement "EndDateTime") ;;
       console_log2 env "End Date:     " (or_else finish (JStr "N/A")))
    (report env).

Definition statements_transactions (env : Env)
    (accountId statementId : string) (json_flag : bool) : M unit :=
  requireAuth env ;;
  try_catch
    (transactions <- withSpinner "Fetching transactions..."
                       (Api.getStatementTransactions env accountId
                          statementId) ;;
     if json_flag then printJson transactions
     else
       printTable env transactions
         [ colf "TransactionId" "ID" format_id;
           colf "BookingDateTime" "Date" format_date;
           colf "Amount" "Amount" format_amount;
           col "CreditDebitIndicator" "Type" ])
    (report env).

(** ** The parsed command line *)

Inductive Command : Type :=
| ConfigSet (token expiry : option string)
| ConfigShow
| ConfigClear
| AccountsList (json_flag : bool)
| AccountsGet (accountId : string) (json_flag : bool)
| AccountsBalances (accountId : string) (json_flag : bool)
| AccountsTransactions (accountId : string) (from to : option string)
    (json_flag : bool)
| BalancesList (json_flag : bool)
| TransactionsList (from to : option string) (json_flag : bool)
| TransactionsGet (accountId transactionId : string) (json_flag : bool)
| BeneficiariesList (json_flag : bool)
| BeneficiariesAccount (accountId : string) (json_flag : bool)
| DirectDebitsList (json_flag : bool)
| DirectDebitsAccount (accountId : string) (json_flag : bool)
| StandingOrdersList (json_flag : bool)
| StandingOrdersAccount (accountId : string) (json_flag : bool)
| StatementsList (accountId : string) (json_flag : bool)
| StatementsGet (accountId statementId : string) (json_flag : bool)
| StatementsTransactions (accountId statementId : string) (json_flag : bool).

(** The action the parser selects. *)
Definition action (env : Env) (c : Command) : M unit :=
  match c with
  | ConfigSet token expiry => config_set env token expiry
  | ConfigShow => config_show env
  | ConfigClear => config_clear env
  | AccountsList j => accounts_list env j
  | AccountsGet a j => accounts_get env a j
  | AccountsBalances a j => accounts_balances env a j
  | AccountsTransactions a from to j => accounts_transactions env a from to j
  | BalancesList j => balances_list env j
  | TransactionsList from to j => transactions_list env from to j
  | TransactionsGet a t j => transactions_get env a t j
  | BeneficiariesList j => beneficiaries_list env j
  | BeneficiariesAccount a j => beneficiaries_account env a j
  | DirectDebitsList j => direct_debits_list env j
  | DirectDebitsAccount a j => direct_debits_account env a j
  | StandingOrdersList j => standing_orders_list env j
  | StandingOrdersAccount a j => standing_orders_account env a j
  | StatementsList a j => statements_list env a j
  | StatementsGet a s j => statements_get env a s j
  | StatementsTransactions a s j => statements_transactions env a s j
  end.

(** The world after [import './config.js']: the store has loaded the
    file and, when the file was absent or lacked an entry, has written it
    back with the defaults filled in; nothing is printed or sent yet. *)
Definition construct (file : Config.File) : World :=
  {| store := Config.load file; stdout := []; stderr := []; spinner := [];
     requests := [];
     file_writes := if Config.complete file then []
                    else [Config.load file] |}.

(** The world of a process that found [config], with both entries, on
    disk: the store had nothing to write at start-up. *)
Definition start (config : Config.Settings) : World :=
  {| store := config; stdout := []; stderr := []; spinner := [];
     requests := [];
     file_writes := [] |}.

(** The exit status: [0] when the action returns, the argument of
    [process.exit], [1] for an error nobody caught (the trace the run time
    prints for it is left out). *)
Definition exit_status {A} (o : Outcome A) : Z :=
  match o with
  | Ret _ => 0
  | Throw _ => 1
  | Exit code => code
  end.

(** One invocation of the program on a settings file that holds
    [config]. *)
Definition run (env : Env) (c : Command) (config : Config.Settings)
  : Z * World :=
  let (o, w) := action env c (start config) in
  (exit_status o, w).

(** One invocation of the program, whatever the settings file is. *)
Definition invoke (env : Env) (c : Command) (file : Config.File)
  : Z * World :=
  let (o, w) := action env c (construct file) in
  (exit_status o, w).

(** ** Classes of commands *)

Definition is_config (c : Command) : bool :=
  match c with
  | ConfigSet _ _ | ConfigShow | ConfigClear => true
  | _ => false
  end.

(** The read subcommands: every one but the [config] group. *)
Definition is_read (c : Command) : bool := negb (is_config c).

(** The singular lookups. *)
Definition is_get (c : Command) : bool :=
  match c with
  | AccountsGet _ _ | TransactionsGet _ _ _ | StatementsGet _ _ _ => true
  | _ => false
  end.

(** The subcommands that print a table. *)
Definition is_list (c : Command) : bool := is_read c && negb (is_get c).

Definition json_flag_of (c : Command) : bool :=
  match c with
  | ConfigSet _ _ | ConfigShow | ConfigClear => false
  | AccountsList j | AccountsGet _ j | AccountsBalances _ j
  | AccountsTransactions _ _ _ j | BalancesList j
  | TransactionsList _ _ j | TransactionsGet _ _ j
  | BeneficiariesList j | BeneficiariesAccount _ j
  | DirectDebitsList j | DirectDebitsAccount _ j
  | StandingOrdersList j | StandingOrdersAccount _ j
  | StatementsList _ j | StatementsGet _ _ j
  | StatementsTransactions _ _ j => j
  end.

(** The API client operation a read subcommand calls; the [config] group
    calls none. *)
Definition operation (env : Env) (c : Command) : M json :=
  match c with
  | ConfigSet _ _ | ConfigShow | ConfigClear => ret JNull
  | AccountsList _ => Api.listAccounts env
  | AccountsGet a _ => Api.getAccount env a
  | AccountsBalances a _ => Api.getAccountBalances env a
  | AccountsTransactions a from to _ =>
      Api.getAccountTransactions env a
        {| Api.fromDate := from; Api.toDate := to |}
  | BalancesList _ => Api.listBalances env
  | TransactionsList from to _ =>
      Api.listTransactions env {| Api.fromDate := from; Api.toDate := to |}
  | TransactionsGet a t _ => Api.getTransaction env a t
  | BeneficiariesList _ => Api.listBeneficiaries env
  | BeneficiariesAccount a _ => Api.getAccountBeneficiaries env a
  | DirectDebitsList _ => Api.listDirectDebits env
  | DirectDebitsAccount a _ => Api.getAccountDirectDebits env a
  | StandingOrdersList _ => Api.listStandingOrders env
  | StandingOrdersAccount a _ => Api.getAccountStandingOrders env a
  | StatementsList a _ => Api.listStatements env a
  | StatementsGet a s _ => Api.getStatement env a s
  | StatementsTransactions a s _ => Api.getStatementTransactions env a s
  end.

End Cli.


(* ================================================================== *)
(** * The read subcommands, side by side *)
(* ================================================================== *)

(** Every read subcommand is one skeleton, [requireAuth], a spinner around
    one API client operation, then the output, filled in with its own
    texts.  The tables below list what differs; [Shape_action] and
    [Shape_operation] further down show that they describe [Cli.action]
    and [Cli.operation]. *)

Module Shape.
Import Proc Cli.
Local Open Scope proc_scope.

Definition spinner_text (c : Command) : string :=
  match c with
  | AccountsList _ => "Fetching accounts..."
  | AccountsGet _ _ => "Fetching account..."
  | AccountsBalances _ _ | BalancesList _ => "Fetching balances..."
  | AccountsTransactions _ _ _ _ | TransactionsList _ _ _
  | StatementsTransactions _ _ _ => "Fetching transactions..."
  | TransactionsGet _ _ _ => "Fetching transaction..."
  | BeneficiariesList _ | BeneficiariesAccount _ _ =>
      "Fetching beneficiaries..."
  | DirectDebitsList _ | DirectDebitsAccount _ _ =>
      "Fetching direct debits..."
  | StandingOrdersList _ | StandingOrdersAccount _ _ =>
      "Fetching standing orders..."
  | StatementsList _ _ => "Fetching statements..."
  | StatementsGet _ _ _ => "Fetching statement..."
  | ConfigSet _ _ | ConfigShow | ConfigClear => ""
  end.

Definition endpoint (c : Command) : string :=
  match c with
  | AccountsList _ => "/accounts"
  | AccountsGet a _ => "/accounts/" ++ a
  | AccountsBalances a _ => "/accounts/" ++ a ++ "/balances"
  | AccountsTransactions a _ _ _ => "/accounts/" ++ a ++ "/transactions"
  | BalancesList _ => "/balances"
  | TransactionsList _ _ _ => "/transactions"
  | TransactionsGet a t _ => "/accounts/" ++ a ++ "/transactions/" ++ t
  | BeneficiariesList _ => "/beneficiaries"
  | BeneficiariesAccount a _ => "/accounts/" ++ a ++ "/beneficiaries"
  | DirectDebitsList _ => "/direct-debits"
  | DirectDebitsAccount a _ => "/accounts/" ++ a ++ "/direct-debits"
  | StandingOrdersList _ => "/standing-orders"
  | StandingOrdersAccount a _ => "/accounts/" ++ a ++ "/standing-orders"
  | StatementsList a _ => "/accounts/" ++ a ++ "/statements"
  | StatementsGet a s _ => "/accounts/" ++ a ++ "/statements/" ++ s
  | StatementsTransactions a s _ =>
      "/accounts/" ++ a ++ "/statements/" ++ s ++ "/transactions"
  | ConfigSet _ _ | ConfigShow | ConfigClear => ""
  end.

(** The [params] argument: the date range for the two date-ranged calls,
    [null] for the others. *)
Definition query (c : Command) : option (list (string * string)) :=
  match c with
  | AccountsTransactions _ from to _ | TransactionsList from to _ =>
      Some (Api.assign_if "toBookingDateTime" to
              (Api.assign_if "fromBookingDateTime" from []))
  | _ => None
  end.

(** The name of the array in the envelope. *)
Definition envelope (c : Command) : string :=
  match c with
  | AccountsList _ | AccountsGet _ _ => "Account"
  | AccountsBalances _ _ | BalancesList _ => "Balance"
  | AccountsTransactions _ _ _ _ | TransactionsList _ _ _
  | TransactionsGet _ _ _ | StatementsTransactions _ _ _ => "Transaction"
  | BeneficiariesList _ | BeneficiariesAccount _ _ => "Beneficiary"
  | DirectDebitsList _ | DirectDebitsAccount _ _ => "DirectDebit"
  | StandingOrdersList _ | StandingOrdersAccount _ _ => "StandingOrder"
  | StatementsList _ _ | StatementsGet _ _ _ => "Statement"
  | ConfigSet _ _ | ConfigShow | ConfigClear => ""
  end.

(** The value the API client returns for the response body [data]. *)
Definition extracted (c : Command) (data : value) : Result json :=
  if is_get c then Api.first_of data (envelope c)
  else Api.named_array data (envelope c).

(** The request a read subcommand sends when the stored token is
    [accessToken]. *)
Definition request_of (accessToken : string) (c : Command) : Http.Request :=
  Api.request_config accessToken "GET" (endpoint c) Api.null (query c).

(** The columns of the table a list subcommand prints. *)
Definition columns (c : Command) : list Column :=
  match c with
  | AccountsList _ =>
      [ col "AccountId" "ID"; col "Nickname" "Nickname";
        col "Currency" "Currency"; col "AccountType" "Type";
        col "AccountSubType" "SubType" ]
  | AccountsBalances _ _ =>
      [ col "Type" "Type"; colf "Amount" "Amount" format_amount;
        col "CreditDebitIndicator" "Indicator"; col "DateTime" "Date Time" ]
  | AccountsTransactions _ _ _ _ =>
      [ colf "TransactionId" "ID" format_id;
        colf "BookingDateTime" "Date" format_date;
        colf "Amount" "Amount" format_amount;
        col "CreditDebitIndicator" "Type"; col "Status" "Status" ]
  | BalancesList _ =>
      [ col "AccountId" "Account ID"; col "Type" "Type";
        colf "Amount" "Amount" format_amount;
        col "CreditDebitIndicator" "Indicator" ]
  | TransactionsList _ _ _ =>
      [ col "AccountId" "Account"; colf "TransactionId" "ID" format_id;
        colf "BookingDateTime" "Date" format_date;
        colf "Amount" "Amount" format_amount;
        col "CreditDebitIndicator" "Type" ]
  | BeneficiariesList _ =>
      [ col "AccountId" "Account"; col "BeneficiaryId" "ID";
        col "Reference" "Reference" ]
  | BeneficiariesAccount _ _ =>
      [ col "BeneficiaryId" "ID"; col "Reference" "Reference" ]
  | DirectDebitsList _ =>
      [ col "AccountId" "Account"; col "DirectDebitId" "ID";
        col "MandateIdentification" "Mandate";
        col "DirectDebitStatusCode" "Status" ]
  | DirectDebitsAccount _ _ =>
      [ col "DirectDebitId" "ID"; col "MandateIdentification" "Mandate";
        col "DirectDebitStatusCode" "Status" ]
  | StandingOrdersList _ =>
      [ col "AccountId" "Account"; col "StandingOrderId" "ID";
        col "Frequency" "Frequency"; col "Reference" "Reference" ]
  | StandingOrdersAccount _ _ =>
      [ col "StandingOrderId" "ID"; col "Frequency" "Frequency";
        col "Reference" "Reference" ]
  | StatementsList _ _ =>
      [ col "StatementId" "ID"; col "Type" "Type";
        colf "StartDateTime" "Start" format_date;
        colf "EndDateTime" "End" format_date ]
  | StatementsTransactions _ _ _ =>
      [ colf "TransactionId" "ID" format_id;
        colf "BookingDateTime" "Date" format_date;
        colf "Amount" "Amount" format_amount;
        col "CreditDebitIndicator" "Type" ]
  | _ => []
  end.

(** The heading of the details a singular lookup prints and the first
    property it reads. *)
Definition heading (c : Command) : string :=
  match c with
  | AccountsGet _ _ => "Account Details"
  | TransactionsGet _ _ _ => "Transaction Details"
  | StatementsGet _ _ _ => "Statement Details"
  | _ => ""
  end.

Definition first_field (c : Command) : string :=
  match c with
  | AccountsGet _ _ => "AccountId"
  | TransactionsGet _ _ _ => "TransactionId"
  | StatementsGet _ _ _ => "StatementId"
  | _ => ""
  end.

(** What the API client hands back to the command: the extracted value, or
    the error it throws. *)
Definition answer (env : Env) (accessToken : string) (c : Command)
  : Result json :=
  match axios env (request_of accessToken c) with
  | Http.Resolved response => extracted c (Http.body response)
  | Http.Rejected error => Raise (Api.handleApiError error)
  end.

(** The query parameters of a date-ranged call in the words of the
    specification: each of the two dates, when supplied, under its own
    name, and nothing for a date that is omitted. *)
Definition spec_date_parameters (from to : option string)
  : list (string * string) :=
  (match from with
   | Some d => [("fromBookingDateTime", d)]
   | None => []
   end
   ++
   match to with
   | Some d => [("toBookingDateTime", d)]
   | None => []
   end)%list.

(** The subcommands that leave the settings file alone: all but
    [config set] and [config clear]. *)
Definition reads_only (c : Command) : bool :=
  match c with
  | ConfigSet _ _ | ConfigClear => false
  | _ => true
  end.

(** What [requireAuth] prints before it stops the process. *)
Definition guidance (env : Env) : list string :=
  [ newline ++ "Run the following to configure:";
    chalk env cyan "  openbankingorgukacco config set --token <token>" ].

(** The line [printError] writes. *)
Definition error_line (env : Env) (message : string) : string :=
  chalk env red cross_mark ++ " " ++ message.

(** The world once the spinner started and the request left. *)
Definition in_flight (accessToken : string) (c : Command) (w : World)
  : World :=
  sent (request_of accessToken c) (spun (SpinStart (spinner_text c)) w).

End Shape.

(* ================================================================== *)
(** * Sample runs *)
(* ================================================================== *)

Module Demo.
Import Proc Cli.

(** A terminal without colours, a remote end that gives every request the
    same answer. *)
Definition env (reply : Http.AxiosResult) : Env :=
  {| chalk := fun _ s => s;
     Date_now := 1700000000000;
     axios := fun _ => reply;
     inspect := JSON_stringify;
     fault_message := fun fault =>
       match fault with
       | ReadOfNull k =>
           "Cannot read properties of null (reading '" ++ k ++ "')"
       | ReadOfUndefined k =>
           "Cannot read properties of undefined (reading '" ++ k ++ "')"
       | NotAFunction f => f ++ " is not a function"
       end;
     toLocaleString := Z_to_string |}.

Definition ok (body : json) : Http.AxiosResult :=
  Http.Resolved {| Http.status := 200; Http.body := Some body |}.

Definition failed (status : Z) (body : json) : Http.AxiosResult :=
  Http.Rejected
    {| Http.response := Some {| Http.status := status;
                                Http.body := Some body |};
       Http.request := true;
       Http.message :=
         "Request failed with status code " ++ Z_to_string status |}.

Definition unreachable : Http.AxiosResult :=
  Http.Rejected
    {| Http.response := None;
       Http.request := true;
       Http.message := "getaddrinfo ENOTFOUND api.openbanking.org.uk" |}.

(** An envelope [{ Data: { <name>: <payload> } }]. *)
Definition enveloped (name : string) (payload : json) : json :=
  JObj [("Data", JObj [(name, payload)])].

Definition account : json :=
  JObj [ ("AccountId", JStr "22289");
         ("Currency", JStr "GBP");
         ("AccountType", JStr "Personal");
         ("AccountSubType", JStr "CurrentAccount");
         ("Nickname", JStr "Bills") ].

(** A token whose expiry passed long ago. *)
Definition expired : Config.Settings :=
  {| Config.accessToken := "eyJhbGciOi"; Config.tokenExpiry := 1234567890000 |}.

(** A token that is good for another hour. *)
Definition fresh : Config.Settings :=
  {| Config.accessToken := "eyJhbGciOi"; Config.tokenExpiry := 1700003600000 |}.

End Demo.

(* ================================================================== *)
(** * Further vocabulary *)
(* ================================================================== *)

Module More.
Import Proc Cli.

(** The world after [lines] went to the output stream one by one. *)
Definition written_all (lines : list string) (w : World) : World :=
  fold_left (fun w line => written line w) lines w.

(** The number of lines a singular lookup prints in table mode: the
    heading and one line for each property. *)
Definition detail_lines (c : Command) : nat :=
  match c with
  | AccountsGet _ _ => 6
  | TransactionsGet _ _ _ => 7
  | StatementsGet _ _ _ => 5
  | _ => 0
  end.

(** The largest integer a number holds exactly. *)
Definition MAX_SAFE_INTEGER : Z := 9007199254740991.

(** The columns of a table keep apart ([widths] is keyed by [col.key]) and
    no label is wider than the cap on a column. *)
Definition well_formed (columns : list Column) : Prop :=
  NoDup (map key columns)
  /\ Forall (fun c => (String.length (label c) <= 40)%nat) columns.

(** The first line of the details of a singular lookup: its label and the
    identifier given on the command line. *)
Definition id_line (c : Command) : string * string :=
  match c with
  | AccountsGet a _ => ("Account ID:  ", a)
  | TransactionsGet _ t _ => ("Transaction ID:  ", t)
  | StatementsGet _ s _ => ("Statement ID: ", s)
  | _ => ("", "")
  end.

(** The lines of the details that show one property or [N/A]: position in
    the output, label, property. *)
Definition optional_lines (c : Command) : list (nat * string * string) :=
  match c with
  | AccountsGet _ _ =>
      [ (2%nat, "Nickname:    ", "Nickname");
        (3%nat, "Currency:    ", "Currency");
        (4%nat, "Type:        ", "AccountType");
        (5%nat, "SubType:     ", "AccountSubType") ]
  | TransactionsGet _ _ _ =>
      [ (4%nat, "Type:            ", "CreditDebitIndicator");
        (5%nat, "Status:          ", "Status");
        (6%nat, "Booking Date:    ", "BookingDateTime") ]
  | StatementsGet _ _ _ =>
      [ (2%nat, "Type:         ", "Type");
        (3%nat, "Start Date:   ", "StartDateTime");
        (4%nat, "End Date:     ", "EndDateTime") ]
  | _ => []
  end.

(** ** Reading a serialized value back *)
(** The characters of a number as [JSON.stringify] writes it. *)
Definition is_number_char (c : ascii) : bool :=
  let n := nat_of_ascii c in
  (Nat.leb 48 n && Nat.leb n 57)
  || Nat.eqb n 43 || Nat.eqb n 45 || Nat.eqb n 46 || Nat.eqb n 101.

Fixpoint all_chars (p : ascii -> bool) (s : string) : bool :=
  match s with
  | EmptyString => true
  | String c r => p c && all_chars p r
  end.

(** A value as [JSON.parse] gives it: every number is held as the text
    [JSON.stringify] writes for it, which is not empty and made of digits,
    signs, a point and an exponent mark. *)
Fixpoint parsed (v : json) : bool :=
  match v with
  | JNum r => negb (is_empty r) && all_chars is_number_char r
  | JArr items => forallb parsed items
  | JObj props => forallb (fun kv => parsed (snd kv)) props
  | _ => true
  end.

(** The text ends here or goes on with something that is not part of a
    number. *)
Definition stops (s : string) : bool :=
  match s with
  | EmptyString => true
  | String c _ => negb (is_number_char c)
  end.

Definition hex_value (c : ascii) : nat :=
  let n := nat_of_ascii c in
  if Nat.leb n 57 then (n - 48)%nat else (n - 87)%nat.

(** Reads one quoted code unit back from the front of a text. *)
Definition unquote_code_unit (s : string) : option (ascii * string) :=
  match s with
  | String c r =>
      if Ascii.eqb c "\"%char then
        match r with
        | String e r' =>
            if Ascii.eqb e "b"%char then Some (ascii_of_nat 8, r')
            else if Ascii.eqb e "t"%char then Some (ascii_of_nat 9, r')
            else if Ascii.eqb e "n"%char then Some (ascii_of_nat 10, r')
            else if Ascii.eqb e "f"%char then Some (ascii_of_nat 12, r')
            else if Ascii.eqb e "r"%char then Some (ascii_of_nat 13, r')
            else if Ascii.eqb e (ascii_of_nat 34) then Some (e, r')
            else if Ascii.eqb e "\"%char then Some (e, r')
            else if Ascii.eqb e "u"%char then
              match r' with
              | String _ (String _ (String h (String l r''))) =>
                  Some (ascii_of_nat (16 * hex_value h + hex_value l), r'')
              | _ => None
              end
            else None
        | EmptyString => None
        end
      else if Ascii.eqb c (ascii_of_nat 34) then None
      else Some (c, r)
  | EmptyString => None
  end.

(** The first character tells the kind of value that follows. *)
Definition kind (v : json) : nat :=
  match v with
  | JNull => 0
  | JBool _ => 1
  | JNum _ => 2
  | JStr _ => 3
  | JArr _ => 4
  | JObj _ => 5
  end%nat.

Definition kind_of_char (c : ascii) : nat :=
  (if is_number_char c then 2
   else if Ascii.eqb c "n"%char then 0
   else if Ascii.eqb c "t"%char then 1
   else if Ascii.eqb c "f"%char then 1
   else if Ascii.eqb c (ascii_of_nat 34) then 3
   else if Ascii.eqb c "["%char then 4
   else if Ascii.eqb c "{"%char then 5
   else 6)%nat.

(** Sample data. *)
Definition booked : json :=
  JObj [ ("AccountId", JStr "22289");
         ("TransactionId", JStr "123456789012345");
         ("BookingDateTime", JStr "2017-04-05T10:43:07+00:00");
         ("Amount", JObj [("Amount", JStr "10.00"); ("Currency", JStr "GBP")]);
         ("CreditDebitIndicator", JStr "Credit");
         ("Status", JStr "Booked") ].

Definition pending : json :=
  JObj [ ("AccountId", JStr "22289");
         ("Amount", JObj [("Amount", JStr "250.00")]);
         ("CreditDebitIndicator", JStr "Debit") ].

(** A rejection that never got as far as a request. *)
Definition setup_failure : Http.AxiosResult :=
  Http.Rejected
    {| Http.response := None;
       Http.request := false;
       Http.message := "Invalid URL" |}.

End More.

(* ================================================================== *)
(** * Frames *)
(* ================================================================== *)

Module Frame.
Import Proc.

(** [m] leaves the part [P] of the world as it found it. *)
Definition preserves {A X} (P : World -> X) (m : M A) : Prop :=
  forall w, P (snd (m w)) = P w.

(** [P] does not look at what is written to the output stream, to the
    error stream, to the spinner, at the requests sent. *)
Definition blind_to_stdout {X} (P : World -> X) : Prop :=
  forall line w, P (written line w) = P w.

Definition blind_to_stderr {X} (P : World -> X) : Prop :=
  forall line w, P (complained line w) = P w.

Definition blind_to_spinner {X} (P : World -> X) : Prop :=
  forall e w, P (spun e w) = P w.

Definition blind_to_requests {X} (P : World -> X) : Prop :=
  forall config w, P (sent config w) = P w.

(** [m] never calls [process.exit]. *)
Definition no_exit {A} (m : M A) : Prop :=
  forall w code, fst (m w) <> Exit code.

(** The world with another expiry in the settings file. *)
Definition with_expiry (expiry : Z) (w : World) : World :=
  {| store := {| Config.accessToken := Config.accessToken (store w);
                 Config.tokenExpiry := expiry |};
     stdout := stdout w;
     stderr := stderr w;
     spinner := spinner w;
     requests := requests w;
     file_writes := file_writes w |}.

(** [m] does the same whatever the stored expiry is. *)
Definition ignores_expiry {A} (m : M A) : Prop :=
  forall expiry w,
    m (with_expiry expiry w)
    = (fst (m w), with_expiry expiry (snd (m w))).

(** The world with the writes [before] ahead of its own. *)
Definition after_writes (before : list Config.Settings) (w : World)
  : World :=
  {| store := store w;
     stdout := stdout w;
     stderr := stderr w;
     spinner := spinner w;
     requests := requests w;
     file_writes := (before ++ file_writes w)%list |}.

(** [m] does the same whatever was written to the settings file before
    it. *)
Definition ignores_writes {A} (m : M A) : Prop :=
  forall before w,
    m (after_writes before w)
    = (fst (m w), after_writes before (snd (m w))).

(** The environment with another clock. *)
Definition with_clock (now : Z) (env : Env) : Env :=
  {| chalk := chalk env;
     Date_now := now;
     axios := axios env;
     inspect := inspect env;
     fault_message := fault_message env;
     toLocaleString := toLocaleString env |}.

End Frame.

Import Proc Cli Shape Frame More.
Local Open Scope proc_scope.

Create HintDb frame.

Section FrameRules.
Context {X : Type} (P : World -> X).

Lemma preserves_ret {A} (a : A) : preserves P (ret a).
Proof. intro w; reflexivity. Qed.

Lemma preserves_throw {A} (e : exn) : preserves P (@throw A e).
Proof. intro w; reflexivity. Qed.

Lemma preserves_exit {A} (code : Z) : preserves P (@process_exit A code).
Proof. intro w; reflexivity. Qed.

Lemma preserves_lift {A} (r : Result A) : preserves P (lift r).
Proof. destruct r; intro w; reflexivity. Qed.

Lemma preserves_read_store {A} (f : Config.Settings -> A) :
  preserves P (read_store f).
Proof. intro w; reflexivity. Qed.

Lemma preserves_bind {A B} (m : M A) (k : A -> M B) :
  preserves P m -> (forall a, preserves P (k a)) -> preserves P (bind m k).
Proof.
  intros Hm Hk w. unfold bind.
  specialize (Hm w). destruct (m w) as [[a | e | code] w']; cbn in *.
  - rewrite Hk. exact Hm.
  - exact Hm.
  - exact Hm.
Qed.

Lemma preserves_try_catch {A} (m : M A) (h : exn -> M A) :
  preserves P m -> (forall e, preserves P (h e)) ->
  preserves P (try_catch m h).
Proof.
  intros Hm Hh w. unfold try_catch.
  specialize (Hm w). destruct (m w) as [[a | e | code] w']; cbn in *.
  - exact Hm.
  - rewrite Hh. exact Hm.
  - exact Hm.
Qed.

Lemma preserves_console_log (line : string) :
  blind_to_stdout P -> preserves P (console_log line).
Proof. intros H w. apply H. Qed.

Lemma preserves_console_error (line : string) :
  blind_to_stderr P -> preserves P (console_error line).
Proof. intros H w. apply H. Qed.

Lemma preserves_spin (e : SpinnerEvent) :
  blind_to_spinner P -> preserves P (spin e).
Proof. intros H w. apply H. Qed.

Lemma preserves_print_rows columns widths rows :
  blind_to_stdout P -> preserves P (print_rows columns widths rows).
Proof.
  intro H. induction rows as [| row rest IH]; cbn [print_rows].
  - apply preserves_ret.
  - apply preserves_bind; [apply preserves_lift | intro line].
    apply preserves_bind; [apply preserves_console_log, H | intros _].
    exact IH.
Qed.
End FrameRules.

#[local] Hint Resolve preserves_ret preserves_throw preserves_exit
  preserves_lift preserves_read_store preserves_console_log
  preserves_console_error preserves_spin preserves_print_rows : frame.

(** Decompose a computation along its binds, handlers and branches. *)
Ltac frame_step :=
  match goal with
  | |- preserves _ (bind _ _) => apply preserves_bind; [| intro]
  | |- preserves _ (try_catch _ _) => apply preserves_try_catch; [| intro]
  | |- preserves _ (if ?b then _ else _) => destruct b
  | |- preserves _ (match ?x with Some _ => _ | None => _ end) => destruct x
  | |- preserves _ (match ?x with
                    | Http.Resolved _ => _
                    | Http.Rejected _ => _
                    end) => destruct x
  | |- preserves _ _ => solve [eauto with frame]
  end.

Ltac frame := repeat frame_step.

Section FrameOutput.
Context {X : Type} (P : World -> X).

Lemma preserves_printError env message :
  blind_to_stderr P -> preserves P (printError env message).
Proof. intro H. unfold printError. frame. Qed.

Lemma preserves_printSuccess env message :
  blind_to_stdout P -> preserves P (printSuccess env message).
Proof. intro H. unfold printSuccess. frame. Qed.

Lemma preserves_printJson data :
  blind_to_stdout P -> preserves P (printJson data).
Proof. intro H. unfold printJson. frame. Qed.

Lemma preserves_console_log2 env label x :
  blind_to_stdout P -> preserves P (console_log2 env label x).
Proof. intro H. unfold console_log2. frame. Qed.

Lemma preserves_printTable env data columns :
  blind_to_stdout P -> preserves P (printTable env data columns).
Proof. intro H. unfold printTable. frame. Qed.

Lemma preserves_report env error :
  blind_to_stderr P -> preserves P (report env error).
Proof. intro H. unfold report. frame. Qed.

Lemma preserves_requireAuth env :
  blind_to_stdout P -> blind_to_stderr P -> preserves P (requireAuth env).
Proof. intros H1 H2. unfold requireAuth. frame. Qed.

Lemma preserves_withSpinner {A} message (fn : M A) :
  blind_to_spinner P -> preserves P fn -> preserves P (withSpinner message fn).
Proof. intros H1 H2. unfold withSpinner. frame. Qed.
End FrameOutput.

#[local] Hint Resolve preserves_printError preserves_printSuccess
  preserves_printJson preserves_console_log2 preserves_printTable
  preserves_report preserves_requireAuth preserves_withSpinner : frame.

(** ** Computations that do not end the process *)

Section NoExit.

Lemma no_exit_ret {A} (a : A) : no_exit (ret a).
Proof. intros w code; discriminate. Qed.

Lemma no_exit_throw {A} (e : exn) : no_exit (@throw A e).
Proof. intros w code; discriminate. Qed.

Lemma no_exit_lift {A} (r : Result A) : no_exit (lift r).
Proof. destruct r; intros w code; discriminate. Qed.

Lemma no_exit_console_log line : no_exit (console_log line).
Proof. intros w code; discriminate. Qed.

Lemma no_exit_bind {A B} (m : M A) (k : A -> M B) :
  no_exit m -> (forall a, no_exit (k a)) -> no_exit (bind m k).
Proof.
  intros Hm Hk w code. unfold bind.
  specialize (Hm w). destruct (m w) as [[a | e | code'] w']; cbn in *.
  - apply Hk.
  - discriminate.
  - exfalso. exact (Hm code' eq_refl).
Qed.

Lemma no_exit_print_rows columns widths rows :
  no_exit (print_rows columns widths rows).
Proof.
  induction rows as [| row rest IH]; cbn [print_rows].
  - apply no_exit_ret.
  - apply no_exit_bind; [apply no_exit_lift | intro line].
    apply no_exit_bind; [apply no_exit_console_log | intros _].
    exact IH.
Qed.

End NoExit.

#[local] Hint Resolve no_exit_ret no_exit_throw no_exit_lift
  no_exit_console_log no_exit_print_rows : frame.

Ltac no_exit_step :=
  match goal with
  | |- no_exit (bind _ _) => apply no_exit_bind; [| intro]
  | |- no_exit (if ?b then _ else _) => destruct b
  | |- no_exit _ => solve [eauto with frame]
  end.

Lemma no_exit_printTable env data columns :
  no_exit (printTable env data columns).
Proof. unfold printTable. repeat no_exit_step. Qed.

Lemma no_exit_console_log2 env label x : no_exit (console_log2 env label x).
Proof. unfold console_log2. repeat no_exit_step. Qed.

#[local] Hint Resolve no_exit_printTable no_exit_console_log2 : frame.

(** ** Computations that do not look at the expiry *)

Lemma ignores_ret {A} (a : A) : ignores_expiry (ret a).
Proof. intros e w; reflexivity. Qed.

Lemma ignores_throw {A} (e : exn) : ignores_expiry (@throw A e).
Proof. intros e' w; reflexivity. Qed.

Lemma ignores_exit {A} (code : Z) : ignores_expiry (@process_exit A code).
Proof. intros e w; reflexivity. Qed.

Lemma ignores_lift {A} (r : Result A) : ignores_expiry (lift r).
Proof. destruct r; intros expiry w; reflexivity. Qed.

Lemma ignores_console_log line : ignores_expiry (console_log line).
Proof. intros e w; reflexivity. Qed.

Lemma ignores_console_error line : ignores_expiry (console_error line).
Proof. intros e w; reflexivity. Qed.

Lemma ignores_spin ev : ignores_expiry (spin ev).
Proof. intros e w; reflexivity. Qed.

Lemma ignores_send env config : ignores_expiry (send env config).
Proof. intros e w; reflexivity. Qed.

Lemma ignores_read_token :
  ignores_expiry (read_store (Config.getConfig Config.KAccessToken)).
Proof. intros e w; reflexivity. Qed.

Lemma ignores_isConfigured : ignores_expiry (read_store Config.isConfigured).
Proof. intros e w; reflexivity. Qed.

Lemma ignores_bind {A B} (m : M A) (k : A -> M B) :
  ignores_expiry m -> (forall a, ignores_expiry (k a)) ->
  ignores_expiry (bind m k).
Proof.
  intros Hm Hk e w. unfold bind. rewrite Hm.
  destruct (m w) as [[a | ex | code] w']; cbn [fst snd].
  - apply Hk.
  - reflexivity.
  - reflexivity.
Qed.

Lemma ignores_try_catch {A} (m : M A) (h : exn -> M A) :
  ignores_expiry m -> (forall e, ignores_expiry (h e)) ->
  ignores_expiry (try_catch m h).
Proof.
  intros Hm Hh e w. unfold try_catch. rewrite Hm.
  destruct (m w) as [[a | ex | code] w']; cbn [fst snd].
  - reflexivity.
  - apply Hh.
  - reflexivity.
Qed.

Lemma ignores_print_rows columns widths rows :
  ignores_expiry (print_rows columns widths rows).
Proof.
  induction rows as [| row rest IH]; cbn [print_rows].
  - apply ignores_ret.
  - apply ignores_bind; [apply ignores_lift | intro line].
    apply ignores_bind; [apply ignores_console_log | intros _].
    exact IH.
Qed.

#[local] Hint Resolve ignores_ret ignores_throw ignores_exit ignores_lift
  ignores_console_log ignores_console_error ignores_spin ignores_send
  ignores_read_token ignores_isConfigured ignores_print_rows : frame.

Ltac ignores_step :=
  match goal with
  | |- ignores_expiry (bind _ _) => apply ignores_bind; [| intro]
  | |- ignores_expiry (try_catch _ _) => apply ignores_try_catch; [| intro]
  | |- ignores_expiry (if ?b then _ else _) => destruct b
  | |- ignores_expiry (match ?x with
                       | Http.Resolved _ => _
                       | Http.Rejected _ => _
                       end) => destruct x
  | |- ignores_expiry _ => solve [eauto with frame]
  end.

Ltac ignores := repeat ignores_step.

Lemma ignores_printTable env data columns :
  ignores_expiry (printTable env data columns).
Proof. unfold printTable. ignores. Qed.

Lemma ignores_console_log2 env label x :
  ignores_expiry (console_log2 env label x).
Proof. unfold console_log2. ignores. Qed.

Lemma ignores_printJson data : ignores_expiry (printJson data).
Proof. unfold printJson. ignores. Qed.

Lemma ignores_report env error : ignores_expiry (report env error).
Proof. unfold report, printError. ignores. Qed.

Lemma ignores_requireAuth env : ignores_expiry (requireAuth env).
Proof. unfold requireAuth, printError. ignores. Qed.

Lemma ignores_withSpinner {A} message (fn : M A) :
  ignores_expiry fn -> ignores_expiry (withSpinner message fn).
Proof. intro H. unfold withSpinner. ignores. Qed.

Lemma ignores_apiRequest env method endpoint data params :
  ignores_expiry (Api.apiRequest env method endpoint data params).
Proof. unfold Api.apiRequest. ignores. Qed.

#[local] Hint Resolve ignores_printTable ignores_console_log2
  ignores_printJson ignores_report ignores_requireAuth ignores_withSpinner
  ignores_apiRequest : frame.

Lemma ignores_operation env c : ignores_expiry (operation env c).
Proof.
  destruct c; cbn [operation];
    unfold Api.listAccounts, Api.getAccount, Api.getAccountBalances,
      Api.getAccountTransactions, Api.listBalances, Api.listTransactions,
      Api.getTransaction, Api.listBeneficiaries, Api.getAccountBeneficiaries,
      Api.listDirectDebits, Api.getAccountDirectDebits,
      Api.listStandingOrders, Api.getAccountStandingOrders,
      Api.listStatements, Api.getStatement, Api.getStatementTransactions;
    ignores.
Qed.

(* ================================================================== *)
(** * What the settings file and the request log are blind to *)
(* ================================================================== *)

Lemma store_blind_to_stdout : blind_to_stdout store.
Proof. intros line w; reflexivity. Qed.

Lemma store_blind_to_stderr : blind_to_stderr store.
Proof. intros line w; reflexivity. Qed.

Lemma store_blind_to_spinner : blind_to_spinner store.
Proof. intros e w; reflexivity. Qed.

Lemma requests_blind_to_stdout : blind_to_stdout requests.
Proof. intros line w; reflexivity. Qed.

Lemma requests_blind_to_stderr : blind_to_stderr requests.
Proof. intros line w; reflexivity. Qed.

Lemma requests_blind_to_spinner : blind_to_spinner requests.
Proof. intros e w; reflexivity. Qed.

Lemma stderr_blind_to_stdout : blind_to_stdout stderr.
Proof. intros line w; reflexivity. Qed.

#[local] Hint Resolve store_blind_to_stdout store_blind_to_stderr
  store_blind_to_spinner requests_blind_to_stdout requests_blind_to_stderr
  requests_blind_to_spinner stderr_blind_to_stdout : frame.

Lemma preserves_send_store env config : preserves store (send env config).
Proof. intro w; reflexivity. Qed.

#[local] Hint Resolve preserves_send_store : frame.

Lemma preserves_apiRequest_store env method endpoint data params :
  preserves store (Api.apiRequest env method endpoint data params).
Proof. unfold Api.apiRequest. frame. Qed.

#[local] Hint Resolve preserves_apiRequest_store : frame.

Lemma preserves_operation_store env c : preserves store (operation env c).
Proof.
  destruct c; cbn [operation];
    unfold Api.listAccounts, Api.getAccount, Api.getAccountBalances,
      Api.getAccountTransactions, Api.listBalances, Api.listTransactions,
      Api.getTransaction, Api.listBeneficiaries, Api.getAccountBeneficiaries,
      Api.listDirectDebits, Api.getAccountDirectDebits,
      Api.listStandingOrders, Api.getAccountStandingOrders,
      Api.listStatements, Api.getStatement, Api.getStatementTransactions;
    frame.
Qed.

Lemma preserves_write_store_requests f : preserves requests (write_store f).
Proof.
  intro w. unfold write_store. destruct (f (store w)); reflexivity.
Qed.

#[local] Hint Resolve preserves_write_store_requests : frame.

Lemma preserves_config_requests env c :
  is_config c = true -> preserves requests (action env c).
Proof.
  destruct c; try discriminate; intros _; cbn [action];
    unfold config_set, config_show, config_clear; frame.
Qed.

(* ================================================================== *)
(** * The skeleton of a read subcommand *)
(* ================================================================== *)

Lemma Shape_operation env c :
  is_read c = true ->
  operation env c =
    (data <- Api.apiRequest env "GET" (endpoint c) Api.null (query c) ;;
     lift (extracted c data)).
Proof. destruct c; try discriminate; reflexivity. Qed.

(** [render] is what the subcommand prints without [--json]: the table of
    a list subcommand, the details of a singular lookup.  It writes to the
    output stream and does nothing else. *)
Lemma Shape_action env c :
  is_read c = true ->
  exists render : json -> M unit,
    action env c =
      (requireAuth env ;;
       try_catch
         (x <- withSpinner (spinner_text c) (operation env c) ;;
          if json_flag_of c then printJson x else render x)
         (report env))
    /\ (is_list c = true -> render = fun x => printTable env x (columns c))
    /\ (is_get c = true ->
        forall w,
          render JNull w =
            (Throw (TypeError (ReadOfNull (first_field c))),
             written (chalk env bold (newline ++ heading c ++ newline)) w))
    /\ (forall X (P : World -> X),
          blind_to_stdout P -> forall x, preserves P (render x))
    /\ (forall x, no_exit (render x))
    /\ (forall x, ignores_expiry (render x)).
Proof.
  destruct c; try discriminate; intros _; eexists;
    (split; [reflexivity |]);
    (split; [intro; try discriminate; reflexivity |]);
    (split; [intro; try discriminate; intro; reflexivity |]);
    (split; [intros X P blind x; frame |]);
    (split; [intro x; repeat no_exit_step | intro x; ignores]).
Qed.

(** ** Running the pieces *)

Lemma requireAuth_passes env w :
  Config.accessToken (store w) <> "" -> requireAuth env w = (Ret tt, w).
Proof.
  intro H. unfold requireAuth, bind, read_store, Config.isConfigured.
  cbn [Config.getConfig].
  destruct (Config.accessToken (store w)); [contradiction | reflexivity].
Qed.

Lemma requireAuth_stops env w :
  Config.accessToken (store w) = "" ->
  requireAuth env w =
    (Exit 1,
     written (chalk env cyan
                "  openbankingorgukacco config set --token <token>")
       (written (newline ++ "Run the following to configure:")
          (complained (error_line env "Access token not configured.") w))).
Proof.
  intro H. unfold requireAuth, bind, read_store, Config.isConfigured.
  cbn [Config.getConfig]. rewrite H. reflexivity.
Qed.

Lemma apiRequest_guard env method endpoint data params w :
  Config.accessToken (store w) = "" ->
  Api.apiRequest env method endpoint data params w
  = (Throw Api.not_configured, w).
Proof.
  intro H. unfold Api.apiRequest, bind, read_store.
  cbn [Config.getConfig]. rewrite H. reflexivity.
Qed.

Lemma apiRequest_sends env method endpoint data params w :
  Config.accessToken (store w) <> "" ->
  Api.apiRequest env method endpoint data params w
  = (match axios env (Api.request_config (Config.accessToken (store w))
                        method endpoint data params) with
     | Http.Resolved response => Ret (Http.body response)
     | Http.Rejected error => Throw (Api.handleApiError error)
     end,
     sent (Api.request_config (Config.accessToken (store w))
             method endpoint data params) w).
Proof.
  intro H. unfold Api.apiRequest, bind, read_store, send.
  cbn [Config.getConfig].
  destruct (Config.accessToken (store w)) as [| a t]; [contradiction |].
  cbn [string_truthy is_empty negb].
  destruct (axios env _); reflexivity.
Qed.

Lemma operation_run env c w :
  is_read c = true ->
  Config.accessToken (store w) <> "" ->
  operation env c w
  = (match answer env (Config.accessToken (store w)) c with
     | Ok x => Ret x
     | Raise e => Throw e
     end,
     sent (request_of (Config.accessToken (store w)) c) w).
Proof.
  intros Hc Ht. rewrite (Shape_operation env c Hc). unfold bind.
  rewrite (apiRequest_sends env _ _ _ _ w Ht).
  unfold answer, request_of.
  destruct (axios env _) as [response | error]; [| reflexivity].
  destruct (extracted c (Http.body response)); reflexivity.
Qed.

Lemma withSpinner_run {A} message (fn : M A) w :
  withSpinner message fn w
  = match fn (spun (SpinStart message) w) with
    | (Ret a, w') => (Ret a, spun SpinStop w')
    | (Throw e, w') => (Throw e, spun SpinStop w')
    | (Exit code, w') => (Exit code, w')
    end.
Proof.
  unfold withSpinner, bind, try_catch, spin.
  destruct (fn (spun (SpinStart message) w)) as [[a | e | code] w'];
    reflexivity.
Qed.

(** A read subcommand with a token in the store, from start to end. *)
Lemma action_run env c config :
  is_read c = true ->
  Config.accessToken config <> "" ->
  exists render : json -> M unit,
    (is_list c = true -> render = fun x => printTable env x (columns c))
    /\ (is_get c = true ->
        forall w,
          render JNull w =
            (Throw (TypeError (ReadOfNull (first_field c))),
             written (chalk env bold (newline ++ heading c ++ newline)) w))
    /\ (forall X (P : World -> X),
          blind_to_stdout P -> forall x, preserves P (render x))
    /\ (forall x, no_exit (render x))
    /\ action env c (start config)
       = let w := spun SpinStop
                    (in_flight (Config.accessToken config) c (start config))
         in
         match answer env (Config.accessToken config) c with
         | Raise e =>
             (Exit 1, complained (error_line env (message_of env e)) w)
         | Ok x =>
             if json_flag_of c
             then (Ret tt, written (JSON_stringify2 x) w)
             else try_catch (render x) (report env) w
         end.
Proof.
  intros Hc Ht.
  destruct (Shape_action env c Hc) as (render & Ha & Hl & Hg & Hf & Hn & _).
  exists render. repeat (split; [assumption |]).
  rewrite Ha. unfold bind at 1.
  rewrite requireAuth_passes by exact Ht.
  unfold try_catch at 1. unfold bind at 1.
  rewrite withSpinner_run.
  rewrite operation_run by (assumption || exact Ht).
  cbn [store spun start].
  destruct (answer env (Config.accessToken config) c) as [x | e].
  - destruct (json_flag_of c); reflexivity.
  - reflexivity.
Qed.

(* ================================================================== *)
(** * Runs of a read subcommand *)
(* ================================================================== *)

(** With no token in the store [requireAuth] ends the process. *)
Lemma run_unconfigured env c config :
  is_read c = true ->
  Config.accessToken config = "" ->
  run env c config
  = (1, {| store := config;
           stdout := guidance env;
           stderr := [error_line env "Access token not configured."];
           spinner := [];
           requests := [];
           file_writes := [] |}).
Proof.
  intros Hc Ht. unfold run.
  destruct (Shape_action env c Hc) as (render & Ha & _).
  rewrite Ha. unfold bind at 1.
  rewrite requireAuth_stops by exact Ht. reflexivity.
Qed.

(** What is left of the run once the value [x] is there and [--json] is
    not given: the rendering in its [try] block. *)
Lemma rendering_run env (render : json -> M unit) x w :
  (forall X (P : World -> X),
     blind_to_stdout P -> forall x, preserves P (render x)) ->
  (forall x, no_exit (render x)) ->
  exists w',
    stderr w' = stderr w /\ requests w' = requests w /\ store w' = store w
    /\ (try_catch (render x) (report env) w = (Ret tt, w')
        \/ exists e,
             try_catch (render x) (report env) w
             = (Exit 1, complained (error_line env (message_of env e)) w')).
Proof.
  intros Hf Hn.
  pose proof (Hf _ stderr stderr_blind_to_stdout x w) as H1.
  pose proof (Hf _ requests requests_blind_to_stdout x w) as H2.
  pose proof (Hf _ store store_blind_to_stdout x w) as H3.
  pose proof (Hn x w) as H4.
  unfold try_catch.
  destruct (render x w) as [[[] | e | code] w']; cbn [fst snd] in *.
  - exists w'. repeat (split; [assumption |]). left. reflexivity.
  - exists w'. repeat (split; [assumption |]). right. exists e. reflexivity.
  - exfalso. exact (H4 code eq_refl).
Qed.

(** With a token in the store exactly one request leaves the process. *)
Lemma run_requests env c config :
  is_read c = true ->
  Config.accessToken config <> "" ->
  requests (snd (run env c config))
  = [request_of (Config.accessToken config) c].
Proof.
  intros Hc Ht. unfold run.
  destruct (action_run env c config Hc Ht)
    as (render & _ & _ & Hf & Hn & Hrun).
  rewrite Hrun. cbv zeta.
  destruct (answer env (Config.accessToken config) c) as [x | e].
  - destruct (json_flag_of c); [reflexivity |].
    destruct (rendering_run env render x
                (spun SpinStop
                   (in_flight (Config.accessToken config) c (start config)))
                Hf Hn)
      as (w' & _ & Hw & _ & [-> | [e ->]]); cbn [snd]; exact Hw.
  - reflexivity.
Qed.

(** The exit status is 0 when nothing went wrong and nothing was written to
    the error stream, 1 when an error was caught and reported there. *)
Lemma run_exit_status env c config :
  is_read c = true ->
  Config.accessToken config <> "" ->
  (fst (run env c config) = 0 /\ stderr (snd (run env c config)) = [])
  \/ (fst (run env c config) = 1
      /\ exists e,
           stderr (snd (run env c config))
           = [error_line env (message_of env e)]).
Proof.
  intros Hc Ht. unfold run.
  destruct (action_run env c config Hc Ht)
    as (render & _ & _ & Hf & Hn & Hrun).
  rewrite Hrun. cbv zeta.
  destruct (answer env (Config.accessToken config) c) as [x | e].
  - destruct (json_flag_of c); [left; split; reflexivity |].
    destruct (rendering_run env render x
                (spun SpinStop
                   (in_flight (Config.accessToken config) c (start config)))
                Hf Hn)
      as (w' & Hw & _ & _ & [-> | [e ->]]); cbn [fst snd exit_status].
    + left. split; [reflexivity | exact Hw].
    + right. split; [reflexivity |]. exists e.
      cbn [stderr complained]. rewrite Hw. reflexivity.
  - right. split; [reflexivity |]. exists e. reflexivity.
Qed.

(** A read subcommand does the same whatever the stored expiry and the
    clock are. *)
Lemma run_ignores_expiry env c config expiry now :
  is_read c = true ->
  run (with_clock now env) c
    {| Config.accessToken := Config.accessToken config;
       Config.tokenExpiry := expiry |}
  = (fst (run env c config), with_expiry expiry (snd (run env c config))).
Proof.
  intro Hc.
  assert (Hclock : action (with_clock now env) c = action env c)
    by (destruct c; try discriminate; reflexivity).
  assert (Hi : ignores_expiry (action env c)).
  { destruct (Shape_action env c Hc) as (render & Ha & _ & _ & _ & _ & Hr).
    rewrite Ha. pose proof (ignores_operation env c) as Hop. ignores. }
  unfold run. rewrite Hclock.
  change (start {| Config.accessToken := Config.accessToken config;
                   Config.tokenExpiry := expiry |})
    with (with_expiry expiry (start config)).
  rewrite Hi. destruct (action env c (start config)) as [o w]. reflexivity.
Qed.

(** No read subcommand writes the settings file. *)
Lemma preserves_read_store_action env c :
  is_read c = true -> preserves store (action env c).
Proof.
  intro Hc.
  destruct (Shape_action env c Hc) as (render & Ha & _ & _ & Hf & _).
  rewrite Ha.
  pose proof (preserves_operation_store env c) as Hop.
  pose proof (fun x => Hf _ store store_blind_to_stdout x) as Hr.
  frame.
Qed.

(* ================================================================== *)
(** * The settings store *)
(* ================================================================== *)

(** C4.  [isConfigured()] is true exactly when the stored token is not
    empty; [hasValidToken()] is true exactly when the token is not empty
    and the stored expiry lies more than 60000 ms after [Date.now()].  So a
    store with a token whose expiry is in the past has [hasValidToken]
    false and [isConfigured] true. *)
Theorem token_presence_and_validity (now : Z) (config : Config.Settings) :
  (Config.isConfigured config = true <-> Config.accessToken config <> "")
  /\ (Config.hasValidToken now config = true
      <-> Config.accessToken config <> ""
          /\ (Config.tokenExpiry config > now + 60000)%Z)
  /\ (Config.accessToken config <> "" ->
      (Config.tokenExpiry config < now)%Z ->
      Config.hasValidToken now config = false
      /\ Config.isConfigured config = true).
Proof.
  unfold Config.isConfigured, Config.hasValidToken.
  cbn [Config.getConfig].
  destruct config as [token expiry]; cbn [Config.accessToken Config.tokenExpiry].
  destruct token as [| a t]; cbn [string_truthy is_empty negb].
  - split; [| split].
    + split; [discriminate | intro H; contradiction].
    + split; [discriminate | intros [H _]; contradiction].
    + intro H; contradiction.
  - split; [| split].
    + split; [discriminate | reflexivity].
    + split.
      * intro H. split; [discriminate |]. apply Z.gtb_lt in H. lia.
      * intros [_ H]. apply Z.gtb_lt. lia.
    + intros _ H. split; [| reflexivity].
      destruct (Z.gtb_spec expiry (now + 60000)); [lia | reflexivity].
Qed.

Lemma token_presence_and_validity_witness :
  Config.hasValidToken 1700000000000 Demo.expired = false
  /\ Config.isConfigured Demo.expired = true.
Proof.
  apply (proj2 (proj2 (token_presence_and_validity 1700000000000
                         Demo.expired))).
  - discriminate.
  - reflexivity.
Defined.

(* ================================================================== *)
(** * The gate in front of the API client *)
(* ================================================================== *)

(** C1, as stated, fails: with a stored token that is not valid any more,
    [accounts list --json] does not stop with a non-zero status; it sends
    its request and exits with status 0. *)
Lemma expired_token_is_not_refused :
  is_read (AccountsList true) = true
  /\ Config.hasValidToken
       (Date_now (Demo.env (Demo.ok (Demo.enveloped "Account" (JArr [])))))
       Demo.expired = false
  /\ ~ (fst (run (Demo.env (Demo.ok (Demo.enveloped "Account" (JArr []))))
               (AccountsList true) Demo.expired) <> 0%Z
        /\ requests
             (snd (run (Demo.env
                          (Demo.ok (Demo.enveloped "Account" (JArr []))))
                     (AccountsList true) Demo.expired)) = []).
Proof.
  split; [reflexivity |]. split; [reflexivity |].
  intros [H _]. apply H. reflexivity.
Qed.

(** C1, amended.  Every read subcommand requires a stored token before it
    calls the API client: when the token is absent the command prints the
    guidance and exits with status 1 without a network call.  The expiry
    is not looked at: when the token is present the request is sent, and
    the whole run (status, both streams, the request) is the same
    whatever [tokenExpiry] and the clock say. *)
Theorem requireAuth_checks_presence_only env c config :
  is_read c = true ->
  (Config.accessToken config = "" ->
   fst (run env c config) = 1%Z
   /\ stderr (snd (run env c config))
      = [error_line env "Access token not configured."]
   /\ stdout (snd (run env c config)) = guidance env
   /\ requests (snd (run env c config)) = [])
  /\ (Config.accessToken config <> "" ->
      requests (snd (run env c config))
      = [request_of (Config.accessToken config) c])
  /\ (forall expiry now,
        run (with_clock now env) c
          {| Config.accessToken := Config.accessToken config;
             Config.tokenExpiry := expiry |}
        = (fst (run env c config),
           with_expiry expiry (snd (run env c config)))).
Proof.
  intro Hc. split; [| split].
  - intro Ht. rewrite (run_unconfigured env c config Hc Ht). repeat split.
  - intro Ht. exact (run_requests env c config Hc Ht).
  - intros expiry now. exact (run_ignores_expiry env c config expiry now Hc).
Qed.

Lemma requireAuth_checks_presence_only_witness :
  is_read (AccountsGet "22289" false) = true
  /\ requests
       (snd (run (Demo.env (Demo.ok (Demo.enveloped "Account"
                                       (JArr [Demo.account]))))
               (AccountsGet "22289" false) Demo.expired))
     = [request_of (Config.accessToken Demo.expired)
          (AccountsGet "22289" false)].
Proof.
  split; [reflexivity |].
  apply (requireAuth_checks_presence_only
           (Demo.env (Demo.ok (Demo.enveloped "Account"
                                 (JArr [Demo.account]))))
           (AccountsGet "22289" false) Demo.expired).
  - reflexivity.
  - discriminate.
Defined.

(** C3, as stated, fails for the [config] group: with nothing configured,
    [config set --token ...] does not print the precondition error and
    exits with status 0. *)
Lemma config_set_needs_no_token :
  Config.accessToken Config.defaults = ""
  /\ ~ (fst (run (Demo.env Demo.unreachable)
               (ConfigSet (Some "eyJhbGciOi") None) Config.defaults) = 1%Z
        /\ stderr (snd (run (Demo.env Demo.unreachable)
                          (ConfigSet (Some "eyJhbGciOi") None)
                          Config.defaults))
           = [error_line (Demo.env Demo.unreachable)
                "Access token not configured."]
        /\ requests (snd (run (Demo.env Demo.unreachable)
                            (ConfigSet (Some "eyJhbGciOi") None)
                            Config.defaults)) = []).
Proof.
  split; [reflexivity |].
  intros [H _]. vm_compute in H. discriminate H.
Qed.

(** C3, amended.  With no token configured, every read subcommand prints
    the local precondition error, exits with status 1 and sends nothing;
    no subcommand at all, the [config] group included, sends a request;
    and the API client itself throws before it builds a request. *)
Theorem unconfigured_run_is_local env c config :
  Config.accessToken config = "" ->
  (is_read c = true ->
   run env c config
   = (1%Z, {| store := config;
              stdout := guidance env;
              stderr := [error_line env "Access token not configured."];
              spinner := [];
              requests := [];
              file_writes := [] |}))
  /\ requests (snd (run env c config)) = []
  /\ (forall method endpoint data params,
        Api.apiRequest env method endpoint data params (start config)
        = (Throw Api.not_configured, start config)).
Proof.
  intro Ht. split; [| split].
  - intro Hc. exact (run_unconfigured env c config Hc Ht).
  - destruct (is_config c) eqn:Hc.
    + unfold run.
      pose proof (preserves_config_requests env c Hc (start config)) as H.
      destruct (action env c (start config)) as [o w]. exact H.
    + rewrite (run_unconfigured env c config); [reflexivity | | exact Ht].
      unfold is_read. rewrite Hc. reflexivity.
  - intros. apply apiRequest_guard. exact Ht.
Qed.

Lemma unconfigured_run_is_local_witness :
  Config.accessToken Config.defaults = ""
  /\ requests
       (snd (run (Demo.env Demo.unreachable)
               (TransactionsList (Some "2024-01-01") None true)
               Config.defaults)) = [].
Proof.
  split; [reflexivity |].
  apply (unconfigured_run_is_local (Demo.env Demo.unreachable)
           (TransactionsList (Some "2024-01-01") None true)
           Config.defaults).
  reflexivity.
Defined.

(* ================================================================== *)
(** * Exit status *)
(* ================================================================== *)

(** C2.  [config set] with neither [--token] nor [--expiry] reports the
    mistake through [printError] and then returns: nothing was written,
    and the exit status is 0, not 1. *)
Theorem config_set_without_options_exits_zero env config :
  run env (ConfigSet None None) config
  = (0%Z, {| store := config;
             stdout := [];
             stderr := [error_line env
                          "No options provided. Use --token or --expiry"];
             spinner := [];
             requests := [];
             file_writes := [] |}).
Proof. reflexivity. Qed.

(** Every error a read subcommand catches ends the process with status 1,
    after one line on the error stream. *)
Lemma caught_error_exits_one env c config e :
  is_read c = true ->
  Config.accessToken config <> "" ->
  answer env (Config.accessToken config) c = Raise e ->
  fst (run env c config) = 1%Z
  /\ stderr (snd (run env c config))
     = [error_line env (message_of env e)].
Proof.
  intros Hc Ht He. unfold run.
  destruct (action_run env c config Hc Ht) as (render & _ & _ & _ & _ & Hrun).
  rewrite Hrun, He. split; reflexivity.
Qed.

(** No invocation ends with a status other than 0 or 1. *)
Lemma exit_status_zero_or_one env c config :
  fst (run env c config) = 0%Z \/ fst (run env c config) = 1%Z.
Proof.
  destruct (is_config c) eqn:Hk.
  - destruct c; try discriminate; unfold run; cbn [action].
    + unfold config_set, bind, write_store.
      destruct token as [[| a t] |], expiry as [[| b e] |];
        cbn [string_truthy opt_truthy is_empty negb andb
             Config.setConfig ret printSuccess printError console_log
             console_error fst exit_status];
        try (left; reflexivity);
        destruct (parseInt (String b e));
        cbn [fst exit_status]; (left; reflexivity) || (right; reflexivity).
    + left. unfold config_show, bind, read_store.
      cbn [Config.getConfig store start].
      destruct (Config.tokenExpiry config =? 0)%Z; reflexivity.
    + left. reflexivity.
  - assert (Hc : is_read c = true) by (unfold is_read; rewrite Hk; reflexivity).
    destruct (string_dec (Config.accessToken config) "") as [Ht | Ht].
    + right. rewrite (run_unconfigured env c config Hc Ht). reflexivity.
    + destruct (run_exit_status env c config Hc Ht) as [[H _] | [H _]];
        [left | right]; exact H.
Qed.

(* ================================================================== *)
(** * The settings file and the read subcommands *)
(* ================================================================== *)

Lemma file_writes_blind_to_stdout : blind_to_stdout file_writes.
Proof. intros line w; reflexivity. Qed.

Lemma file_writes_blind_to_stderr : blind_to_stderr file_writes.
Proof. intros line w; reflexivity. Qed.

Lemma file_writes_blind_to_spinner : blind_to_spinner file_writes.
Proof. intros e w; reflexivity. Qed.

Lemma file_writes_blind_to_requests : blind_to_requests file_writes.
Proof. intros config w; reflexivity. Qed.

Lemma store_blind_to_requests : blind_to_requests store.
Proof. intros config w; reflexivity. Qed.

Section ReadsFrame.
Context {X : Type} (P : World -> X).
Hypothesis Hout : blind_to_stdout P.
Hypothesis Herr : blind_to_stderr P.
Hypothesis Hspin : blind_to_spinner P.
Hypothesis Hreq : blind_to_requests P.

Lemma preserves_send env config : preserves P (send env config).
Proof. intro w. apply Hreq. Qed.

Lemma preserves_apiRequest env method endpoint data params :
  preserves P (Api.apiRequest env method endpoint data params).
Proof.
  pose proof preserves_send as Hsend.
  unfold Api.apiRequest. frame.
Qed.

Lemma preserves_operation env c : preserves P (operation env c).
Proof.
  pose proof preserves_apiRequest as Hapi.
  destruct c; cbn [operation];
    unfold Api.listAccounts, Api.getAccount, Api.getAccountBalances,
      Api.getAccountTransactions, Api.listBalances, Api.listTransactions,
      Api.getTransaction, Api.listBeneficiaries, Api.getAccountBeneficiaries,
      Api.listDirectDebits, Api.getAccountDirectDebits,
      Api.listStandingOrders, Api.getAccountStandingOrders,
      Api.listStatements, Api.getStatement, Api.getStatementTransactions;
    frame.
Qed.

(** Neither a read subcommand nor [config show] touches a part of the
    world that only the store's writes change. *)
Lemma preserves_reads_only env c :
  reads_only c = true -> preserves P (action env c).
Proof.
  intro Hc. destruct (is_config c) eqn:Hk.
  - destruct c; try discriminate.
    cbn [action]. unfold config_show. frame.
  - assert (Hr : is_read c = true) by (unfold is_read; rewrite Hk; reflexivity).
    destruct (Shape_action env c Hr) as (render & Ha & _ & _ & Hf & _).
    rewrite Ha.
    pose proof (preserves_operation env c) as Hop.
    pose proof (fun x => Hf _ P Hout x) as Hrender.
    frame.
Qed.
End ReadsFrame.

(** ** Computations that do not look at the earlier writes *)

Create HintDb writes.

Lemma writes_ret {A} (a : A) : ignores_writes (ret a).
Proof. intros b w; reflexivity. Qed.

Lemma writes_throw {A} (e : exn) : ignores_writes (@throw A e).
Proof. intros b w; reflexivity. Qed.

Lemma writes_exit {A} (code : Z) : ignores_writes (@process_exit A code).
Proof. intros b w; reflexivity. Qed.

Lemma writes_lift {A} (r : Result A) : ignores_writes (lift r).
Proof. destruct r; intros b w; reflexivity. Qed.

Lemma writes_console_log line : ignores_writes (console_log line).
Proof. intros b w; reflexivity. Qed.

Lemma writes_console_error line : ignores_writes (console_error line).
Proof. intros b w; reflexivity. Qed.

Lemma writes_spin ev : ignores_writes (spin ev).
Proof. intros b w; reflexivity. Qed.

Lemma writes_send env config : ignores_writes (send env config).
Proof. intros b w; reflexivity. Qed.

Lemma writes_read_store {A} (f : Config.Settings -> A) :
  ignores_writes (read_store f).
Proof. intros b w; reflexivity. Qed.

Lemma writes_write_store f : ignores_writes (write_store f).
Proof.
  intros b w. unfold write_store. cbn [store after_writes].
  destruct (f (store w)) as [config | e]; [| reflexivity].
  unfold saved, after_writes. cbn [fst snd file_writes store stdout stderr
                                     spinner requests].
  rewrite app_assoc. reflexivity.
Qed.

Lemma writes_bind {A B} (m : M A) (k : A -> M B) :
  ignores_writes m -> (forall a, ignores_writes (k a)) ->
  ignores_writes (bind m k).
Proof.
  intros Hm Hk b w. unfold bind. rewrite Hm.
  destruct (m w) as [[a | ex | code] w']; cbn [fst snd].
  - apply Hk.
  - reflexivity.
  - reflexivity.
Qed.

Lemma writes_try_catch {A} (m : M A) (h : exn -> M A) :
  ignores_writes m -> (forall e, ignores_writes (h e)) ->
  ignores_writes (try_catch m h).
Proof.
  intros Hm Hh b w. unfold try_catch. rewrite Hm.
  destruct (m w) as [[a | ex | code] w']; cbn [fst snd].
  - reflexivity.
  - apply Hh.
  - reflexivity.
Qed.

Lemma writes_print_rows columns widths rows :
  ignores_writes (print_rows columns widths rows).
Proof.
  induction rows as [| row rest IH]; cbn [print_rows].
  - apply writes_ret.
  - apply writes_bind; [apply writes_lift | intro line].
    apply writes_bind; [apply writes_console_log | intros _].
    exact IH.
Qed.

#[local] Hint Resolve writes_ret writes_throw writes_exit writes_lift
  writes_console_log writes_console_error writes_spin writes_send
  writes_read_store writes_write_store writes_print_rows : writes.

Ltac writes_step :=
  match goal with
  | |- ignores_writes (bind _ _) => apply writes_bind; [| intro]
  | |- ignores_writes (try_catch _ _) => apply writes_try_catch; [| intro]
  | |- ignores_writes (if ?b then _ else _) => destruct b
  | |- ignores_writes (match ?x with Some _ => _ | None => _ end) =>
      destruct x
  | |- ignores_writes (match ?x with
                       | Http.Resolved _ => _
                       | Http.Rejected _ => _
                       end) => destruct x
  | |- ignores_writes _ => solve [eauto with writes]
  end.

Ltac writes := repeat writes_step.

Lemma writes_printTable env data columns :
  ignores_writes (printTable env data columns).
Proof. unfold printTable. writes. Qed.

Lemma writes_console_log2 env label x :
  ignores_writes (console_log2 env label x).
Proof. unfold console_log2. writes. Qed.

Lemma writes_printJson data : ignores_writes (printJson data).
Proof. unfold printJson. writes. Qed.

Lemma writes_printSuccess env message :
  ignores_writes (printSuccess env message).
Proof. unfold printSuccess. writes. Qed.

Lemma writes_printError env message :
  ignores_writes (printError env message).
Proof. unfold printError. writes. Qed.

Lemma writes_report env error : ignores_writes (report env error).
Proof. unfold report, printError. writes. Qed.

Lemma writes_requireAuth env : ignores_writes (requireAuth env).
Proof. unfold requireAuth, printError. writes. Qed.

Lemma writes_withSpinner {A} message (fn : M A) :
  ignores_writes fn -> ignores_writes (withSpinner message fn).
Proof. intro H. unfold withSpinner. writes. Qed.

Lemma writes_apiRequest env method endpoint data params :
  ignores_writes (Api.apiRequest env method endpoint data params).
Proof. unfold Api.apiRequest. writes. Qed.

#[local] Hint Resolve writes_printTable writes_console_log2
  writes_printJson writes_printSuccess writes_printError writes_report
  writes_requireAuth writes_withSpinner writes_apiRequest : writes.

Lemma writes_operation env c : ignores_writes (operation env c).
Proof.
  destruct c; cbn [operation];
    unfold Api.listAccounts, Api.getAccount, Api.getAccountBalances,
      Api.getAccountTransactions, Api.listBalances, Api.listTransactions,
      Api.getTransaction, Api.listBeneficiaries, Api.getAccountBeneficiaries,
      Api.listDirectDebits, Api.getAccountDirectDebits,
      Api.listStandingOrders, Api.getAccountStandingOrders,
      Api.listStatements, Api.getStatement, Api.getStatementTransactions;
    writes.
Qed.

(** No action looks at what was written to the settings file before it. *)
Lemma writes_action env c : ignores_writes (action env c).
Proof.
  destruct (is_config c) eqn:Hk.
  - destruct c; try discriminate; cbn [action];
      unfold config_set, config_show, config_clear; writes.
  - assert (Hc : is_read c = true) by (unfold is_read; rewrite Hk; reflexivity).
    pose proof (writes_operation env c) as Hop.
    destruct c; try discriminate; cbn [action];
      unfold accounts_list, accounts_get, accounts_balances,
        accounts_transactions, balances_list, transactions_list,
        transactions_get, beneficiaries_list, beneficiaries_account,
        direct_debits_list, direct_debits_account, standing_orders_list,
        standing_orders_account, statements_list, statements_get,
        statements_transactions;
      cbn [operation] in Hop; writes.
Qed.

(** An invocation is the run on the settings the store has loaded, with
    the write the store made at start-up, if it made one, ahead of the
    writes of the run. *)
Lemma invoke_run env c file :
  invoke env c file
  = (fst (run env c (Config.load file)),
     after_writes (file_writes (construct file))
       (snd (run env c (Config.load file)))).
Proof.
  unfold invoke, run.
  remember (file_writes (construct file)) as before eqn:Hb.
  assert (E : construct file
              = after_writes before (start (Config.load file)))
    by (subst before; destruct file as [| [t |] [n |]]; reflexivity).
  rewrite E, (writes_action env c).
  destruct (action env c (start (Config.load file))) as [o w]. reflexivity.
Qed.

(** An invocation on a file that holds both entries is a [run]. *)
Lemma invoke_on_disk env c config :
  invoke env c (Config.on_disk config) = run env c config.
Proof. destruct config; reflexivity. Qed.

(** The subcommands that are not read-only are [config set] and
    [config clear]. *)
Lemma reads_only_cases c :
  reads_only c = false
  <-> c = ConfigClear \/ exists token expiry, c = ConfigSet token expiry.
Proof.
  split.
  - destruct c; try discriminate; intros _;
      [right; eexists; eexists; reflexivity | left; reflexivity].
  - intros [-> | (token & expiry & ->)]; reflexivity.
Qed.





(* ================================================================== *)
(** * The API client *)
(* ================================================================== *)

Lemma answer_resolved env token c response x :
  axios env (request_of token c) = Http.Resolved response ->
  extracted c (Http.body response) = Ok x ->
  answer env token c = Ok x.
Proof. intros Ha Hx. unfold answer. rewrite Ha. exact Hx. Qed.

Lemma answer_rejected env token c error :
  axios env (request_of token c) = Http.Rejected error ->
  answer env token c = Raise (Api.handleApiError error).
Proof. intros Ha. unfold answer. rewrite Ha. reflexivity. Qed.

Lemma is_list_is_read c : is_list c = true -> is_read c = true.
Proof. unfold is_list. intro H. apply andb_prop in H. tauto. Qed.

Lemma is_get_is_read c : is_get c = true -> is_read c = true.
Proof. destruct c; try discriminate; reflexivity. Qed.

(** An empty date is dropped like an omitted one. *)
Lemma empty_date_is_omitted k o :
  Api.assign_if k (Some "") o = Api.assign_if k None o.
Proof. reflexivity. Qed.

(** C5.  A date-ranged call ([accounts transactions], [transactions list])
    sends one request whose query parameters are [fromBookingDateTime] for
    a supplied from-date and [toBookingDateTime] for a supplied to-date,
    each with the value given: both when both are supplied, only the one
    supplied when the other is omitted, none when neither is supplied. *)
Theorem date_range_sets_supplied_parameters env config c a j from to :
  Config.accessToken config <> "" ->
  from <> Some "" ->
  to <> Some "" ->
  c = AccountsTransactions a from to j \/ c = TransactionsList from to j ->
  map Http.params (requests (snd (run env c config)))
  = [Some (spec_date_parameters from to)].
Proof.
  intros Ht Hfrom Hto Hc.
  assert (Hq : query c = Some (spec_date_parameters from to)).
  { destruct Hc as [-> | ->]; cbn [query];
      destruct from as [[| x s] |]; try contradiction;
      destruct to as [[| y s'] |]; try contradiction; reflexivity. }
  rewrite run_requests; [| destruct Hc as [-> | ->]; reflexivity | exact Ht].
  cbn [map request_of Api.request_config Http.params]. rewrite Hq.
  reflexivity.
Qed.

Lemma date_range_sets_supplied_parameters_witness :
  Config.accessToken Demo.fresh <> ""
  /\ map Http.params
       (requests
          (snd (run (Demo.env (Demo.ok (Demo.enveloped "Transaction" (JArr []))))
                  (TransactionsList (Some "2024-01-01") (Some "2024-01-31")
                     true)
                  Demo.fresh)))
     = [Some [("fromBookingDateTime", "2024-01-01");
              ("toBookingDateTime", "2024-01-31")]].
Proof.
  split; [discriminate |].
  apply (date_range_sets_supplied_parameters
           (Demo.env (Demo.ok (Demo.enveloped "Transaction" (JArr []))))
           Demo.fresh
           (TransactionsList (Some "2024-01-01") (Some "2024-01-31") true)
           "" true (Some "2024-01-01") (Some "2024-01-31")).
  - discriminate.
  - discriminate.
  - discriminate.
  - right. reflexivity.
Defined.



(* ================================================================== *)
(** * What [JSON.stringify] keeps *)
(* ================================================================== *)

(** The text [JSON.stringify(_, null, 2)] writes for a value can be read
    back: a value's text, followed by anything that does not go on a
    number, has one reading only.  Strings are read back code unit by code
    unit, numbers up to the first character that is not theirs, arrays
    and objects element by element. *)

Lemma append_assoc (a b c : string) : (a ++ b) ++ c = a ++ (b ++ c).
Proof. induction a as [| x a IH]; cbn; [reflexivity | rewrite IH; reflexivity]. Qed.

Lemma append_inv_head (a b c : string) : a ++ b = a ++ c -> b = c.
Proof.
  induction a as [| x a IH]; cbn; intro H; [exact H |].
  injection H as H. exact (IH H).
Qed.

(** Every code unit is read back from its quoted form, whatever
    follows. *)
Lemma unquote_quote c rest :
  unquote_code_unit (quote_code_unit c ++ rest) = Some (c, rest).
Proof. destruct c as [[] [] [] [] [] [] [] []]; reflexivity. Qed.

Lemma quote_body_inj s1 : forall s2 r1 r2,
  quote_body s1 ++ dquote ++ r1 = quote_body s2 ++ dquote ++ r2 ->
  s1 = s2 /\ r1 = r2.
Proof.
  induction s1 as [| c1 s1 IH]; intros [| c2 s2] r1 r2; cbn [quote_body].
  - intro H. injection H as H. split; [reflexivity | exact H].
  - rewrite append_assoc. intro H.
    apply (f_equal unquote_code_unit) in H.
    rewrite unquote_quote in H. discriminate.
  - rewrite append_assoc. intro H.
    apply (f_equal unquote_code_unit) in H.
    rewrite unquote_quote in H. discriminate.
  - rewrite !append_assoc. intro H.
    apply (f_equal unquote_code_unit) in H.
    rewrite !unquote_quote in H. injection H as Hc H.
    destruct (IH _ _ _ H) as [-> ->]. subst. split; reflexivity.
Qed.

Lemma QuoteJSONString_inj s1 s2 r1 r2 :
  QuoteJSONString s1 ++ r1 = QuoteJSONString s2 ++ r2 ->
  s1 = s2 /\ r1 = r2.
Proof.
  unfold QuoteJSONString. rewrite !append_assoc.
  intro H. apply append_inv_head in H.
  exact (quote_body_inj _ _ _ _ H).
Qed.

Lemma number_text_inj n1 : forall n2 r1 r2,
  all_chars is_number_char n1 = true ->
  all_chars is_number_char n2 = true ->
  stops r1 = true -> stops r2 = true ->
  n1 ++ r1 = n2 ++ r2 -> n1 = n2 /\ r1 = r2.
Proof.
  induction n1 as [| c1 n1 IH]; intros [| c2 n2] r1 r2 H1 H2 S1 S2;
    cbn [append all_chars] in *.
  - intro H. split; [reflexivity | exact H].
  - intros ->. apply andb_prop in H2. destruct H2 as [H2 _].
    cbn [stops] in S1. rewrite H2 in S1. discriminate.
  - intros <-. apply andb_prop in H1. destruct H1 as [H1 _].
    cbn [stops] in S2. rewrite H1 in S2. discriminate.
  - intro H. injection H as -> H.
    apply andb_prop in H1, H2.
    destruct (IH n2 r1 r2 (proj2 H1) (proj2 H2) S1 S2 H) as [-> ->].
    split; reflexivity.
Qed.

Section Serialize.
Variable gap : string.
Hypothesis Hgap : is_empty gap = false.

(** Induction on a value with the elements of an array and the values of
    an object as induction hypotheses. *)
Lemma json_induction (P : json -> Prop) :
  P JNull ->
  (forall b, P (JBool b)) ->
  (forall r, P (JNum r)) ->
  (forall s, P (JStr s)) ->
  (forall items, Forall P items -> P (JArr items)) ->
  (forall props, Forall (fun kv => P (snd kv)) props -> P (JObj props)) ->
  forall v, P v.
Proof.
  intros Hnull Hbool Hnum Hstr Harr Hobj.
  fix IH 1. intros [| b | r | s | items | props].
  - exact Hnull.
  - apply Hbool.
  - apply Hnum.
  - apply Hstr.
  - apply Harr. induction items as [| x items IHitems].
    + constructor.
    + constructor; [apply IH | exact IHitems].
  - apply Hobj. induction props as [| [k x] props IHprops].
    + constructor.
    + constructor; [apply IH | exact IHprops].
Qed.

Lemma serialize_array indent x items rest :
  serialize gap indent (JArr (x :: items)) ++ rest
  = "[" ++ newline ++ (indent ++ gap)
      ++ (join ("," ++ newline ++ indent ++ gap)
            (map (serialize gap (indent ++ gap)) (x :: items))
          ++ newline ++ indent ++ "]" ++ rest).
Proof.
  cbn [serialize map]. rewrite Hgap. rewrite !append_assoc. reflexivity.
Qed.

Lemma serialize_object indent kv props rest :
  serialize gap indent (JObj (kv :: props)) ++ rest
  = "{" ++ newline ++ (indent ++ gap)
      ++ (join ("," ++ newline ++ indent ++ gap)
            (map (fun kv => QuoteJSONString (fst kv) ++ ": "
                              ++ serialize gap (indent ++ gap) (snd kv))
               (kv :: props))
          ++ newline ++ indent ++ "}" ++ rest).
Proof.
  cbn [serialize map]. rewrite Hgap. rewrite !append_assoc. reflexivity.
Qed.

(** The first character of a value's text tells its kind. *)
Lemma serialize_head indent v rest :
  parsed v = true ->
  exists c s,
    serialize gap indent v ++ rest = String c s /\ kind_of_char c = kind v.
Proof.
  destruct v as [| [|] | r | s | [| x items] | [| kv props]]; intro Hv.
  - eexists; eexists; split; reflexivity.
  - eexists; eexists; split; reflexivity.
  - eexists; eexists; split; reflexivity.
  - cbn [parsed] in Hv. destruct r as [| c r]; [discriminate |].
    cbn [is_empty negb andb all_chars] in Hv.
    apply andb_prop in Hv. destruct Hv as [Hc _].
    exists c, (r ++ rest). split; [reflexivity |].
    unfold kind_of_char. rewrite Hc. reflexivity.
  - eexists; eexists; split; reflexivity.
  - eexists; eexists; split; reflexivity.
  - rewrite serialize_array. eexists; eexists; split; reflexivity.
  - eexists; eexists; split; reflexivity.
  - rewrite serialize_object. eexists; eexists; split; reflexivity.
Qed.

Lemma join_cons2 sep a b l t :
  join sep (a :: b :: l) ++ t = a ++ sep ++ join sep (b :: l) ++ t.
Proof. cbn [join]. rewrite !append_assoc. reflexivity. Qed.

Section Joined.
Context {A : Type} (f : A -> string) (Q : A -> Prop).
Variables (a b : ascii) (sep' : string).
Hypothesis Ha : is_number_char a = false.
Hypothesis Hb : is_number_char b = false.
Hypothesis Hab : a <> b.

Lemma joined_inj l1 : forall l2 t1 t2,
  Forall (fun x => forall y r1 r2,
            Q y -> stops r1 = true -> stops r2 = true ->
            f x ++ r1 = f y ++ r2 -> x = y /\ r1 = r2) l1 ->
  Forall Q l2 ->
  l1 <> [] -> l2 <> [] ->
  join (String a sep') (map f l1) ++ String b t1
  = join (String a sep') (map f l2) ++ String b t2 ->
  l1 = l2 /\ t1 = t2.
Proof.
  assert (Sa : forall t, stops (String a t) = true)
    by (intro t; cbn [stops]; rewrite Ha; reflexivity).
  assert (Sb : forall t, stops (String b t) = true)
    by (intro t; cbn [stops]; rewrite Hb; reflexivity).
  induction l1 as [| x1 l1 IH]; intros [| x2 l2] t1 t2 H1 H2 N1 N2;
    try contradiction.
  inversion H1 as [| ? ? Hx1 Hl1]; subst.
  inversion H2 as [| ? ? Hx2 Hl2]; subst.
  destruct l1 as [| y1 l1], l2 as [| y2 l2]; cbn [map].
  - cbn [join]. intro H.
    destruct (Hx1 _ _ _ Hx2 (Sb _) (Sb _) H) as [-> E].
    injection E as ->. split; reflexivity.
  - rewrite join_cons2. cbn [join]. intro H.
    destruct (Hx1 x2 (String b t1)
                (String a sep' ++ join (String a sep') (f y2 :: map f l2)
                   ++ String b t2) Hx2 (Sb _) (Sa _) H) as [_ E].
    injection E as E _. symmetry in E. contradiction.
  - rewrite join_cons2. cbn [join]. intro H.
    destruct (Hx1 x2 (String a sep' ++ join (String a sep') (f y1 :: map f l1)
                        ++ String b t1)
                (String b t2) Hx2 (Sa _) (Sb _) H) as [_ E].
    injection E as E _. contradiction.
  - rewrite !join_cons2. intro H.
    destruct (Hx1 x2 _ _ Hx2 (Sa _) (Sa _) H) as [-> E].
    apply (append_inv_head (String a sep')) in E.
    destruct (IH (y2 :: l2) t1 t2 Hl1 Hl2) as [E' ->];
      [discriminate | discriminate | exact E |].
    rewrite E'. split; reflexivity.
Qed.
End Joined.

(** Two values whose texts at the same indentation agree, each followed
    by something that stops a number, are the same value followed by the
    same thing. *)
Lemma serialize_inj v1 : forall indent v2 r1 r2,
  parsed v1 = true -> parsed v2 = true ->
  stops r1 = true -> stops r2 = true ->
  serialize gap indent v1 ++ r1 = serialize gap indent v2 ++ r2 ->
  v1 = v2 /\ r1 = r2.
Proof.
  induction v1 as [| b1 | n1 | s1 | items1 IH | props1 IH] using json_induction;
    intros indent v2 r1 r2 P1 P2 S1 S2 H;
    assert (Hk : kind v2 = kind _)
      by (destruct (serialize_head indent _ r1 P1) as (c1 & t1 & E1 & K1);
          destruct (serialize_head indent _ r2 P2) as (c2 & t2 & E2 & K2);
          rewrite E1, E2 in H; injection H as Hc _;
          rewrite <- K1, <- K2, Hc; reflexivity);
    destruct v2 as [| b2 | n2 | s2 | items2 | props2]; try discriminate Hk;
    clear Hk.
  - injection H as ->. split; reflexivity.
  - destruct b1, b2; try discriminate H; injection H as ->; split; reflexivity.
  - cbn [parsed] in P1, P2. apply andb_prop in P1, P2.
    cbn [serialize] in H.
    destruct (number_text_inj n1 n2 r1 r2 (proj2 P1) (proj2 P2) S1 S2 H)
      as [-> ->].
    split; reflexivity.
  - cbn [serialize] in H.
    destruct (QuoteJSONString_inj _ _ _ _ H) as [-> ->]. split; reflexivity.
  - cbn [parsed] in P1, P2.
    destruct items1 as [| x1 l1], items2 as [| x2 l2].
    + injection H as ->. split; reflexivity.
    + rewrite serialize_array in H. discriminate H.
    + rewrite serialize_array in H. discriminate H.
    + rewrite !serialize_array in H.
      do 3 apply append_inv_head in H.
      apply (joined_inj (serialize gap (indent ++ gap))
               (fun y => parsed y = true)
               ","%char (ascii_of_nat 10) (newline ++ indent ++ gap)
               eq_refl eq_refl ltac:(discriminate)
               (x1 :: l1) (x2 :: l2)
               (indent ++ "]" ++ r1) (indent ++ "]" ++ r2)) in H.
      * destruct H as [-> E]. do 2 apply append_inv_head in E.
        rewrite E. split; reflexivity.
      * apply Forall_forall. intros x Hin y t1 t2 Py St1 St2 E.
        rewrite Forall_forall in IH.
        apply (IH x Hin (indent ++ gap) y t1 t2); try assumption.
        rewrite forallb_forall in P1. exact (P1 x Hin).
      * apply Forall_forall. intros y Hin.
        rewrite forallb_forall in P2. exact (P2 y Hin).
      * discriminate.
      * discriminate.
  - cbn [parsed] in P1, P2.
    destruct props1 as [| x1 l1], props2 as [| x2 l2].
    + injection H as ->. split; reflexivity.
    + rewrite serialize_object in H. discriminate H.
    + rewrite serialize_object in H. discriminate H.
    + rewrite !serialize_object in H.
      do 3 apply append_inv_head in H.
      apply (joined_inj
               (fun kv => QuoteJSONString (fst kv) ++ ": "
                            ++ serialize gap (indent ++ gap) (snd kv))
               (fun kv => parsed (snd kv) = true)
               ","%char (ascii_of_nat 10) (newline ++ indent ++ gap)
               eq_refl eq_refl ltac:(discriminate)
               (x1 :: l1) (x2 :: l2)
               (indent ++ "}" ++ r1) (indent ++ "}" ++ r2)) in H.
      * destruct H as [-> E]. do 2 apply append_inv_head in E.
        rewrite E. split; reflexivity.
      * apply Forall_forall. intros [k x] Hin [k' y] t1 t2 Py St1 St2 E.
        cbn [fst snd] in *. rewrite !append_assoc in E.
        destruct (QuoteJSONString_inj _ _ _ _ E) as [-> E'].
        apply (append_inv_head ": ") in E'.
        rewrite Forall_forall in IH.
        pose proof (IH (k', x) Hin (indent ++ gap) y t1 t2) as IHx.
        cbn [snd] in IHx.
        rewrite forallb_forall in P1.
        destruct (IHx (P1 (k', x) Hin) Py St1 St2 E') as [-> ->].
        split; reflexivity.
      * apply Forall_forall. intros y Hin.
        rewrite forallb_forall in P2. exact (P2 y Hin).
      * discriminate.
      * discriminate.
Qed.
End Serialize.

(** [JSON.stringify(_, null, 2)] loses nothing. *)
Lemma JSON_stringify2_inj x y :
  parsed x = true -> parsed y = true ->
  JSON_stringify2 x = JSON_stringify2 y -> x = y.
Proof.
  intros Px Py H. unfold JSON_stringify2 in H.
  destruct (serialize_inj "  " eq_refl x "" y "" "" Px Py eq_refl eq_refl)
    as [E _]; [| exact E].
  rewrite H. reflexivity.
Qed.

(* ================================================================== *)
(** * Output *)
(* ================================================================== *)

(** C7.  When the array a list subcommand gets from the API client is
    empty, the command prints one line and exits with status 0: the
    "No results found." notice without header or rows in table mode, the
    literal [[]] with [--json]. *)
Theorem empty_list_rendering env c config response :
  is_list c = true ->
  Config.accessToken config <> "" ->
  axios env (request_of (Config.accessToken config) c)
  = Http.Resolved response ->
  extracted c (Http.body response) = Ok (JArr []) ->
  run env c config
  = (0%Z, {| store := config;
             stdout := [if json_flag_of c then "[]"
                        else chalk env yellow "No results found."];
             stderr := [];
             spinner := [SpinStart (spinner_text c); SpinStop];
             requests := [request_of (Config.accessToken config) c];
             file_writes := [] |}).
Proof.
  intros Hc Ht Ha Hx. unfold run.
  destruct (action_run env c config (is_list_is_read c Hc) Ht)
    as (render & Hl & _ & _ & _ & Hrun).
  rewrite Hrun, (answer_resolved _ _ _ _ _ Ha Hx), (Hl Hc).
  destruct (json_flag_of c); reflexivity.
Qed.

Lemma empty_list_rendering_witness :
  is_list (BalancesList false) = true
  /\ Config.accessToken Demo.fresh <> ""
  /\ run (Demo.env (Demo.ok (Demo.enveloped "Balance" (JArr []))))
       (BalancesList false) Demo.fresh
     = (0%Z, {| store := Demo.fresh;
                stdout := ["No results found."];
                stderr := [];
                spinner := [SpinStart "Fetching balances..."; SpinStop];
                requests := [request_of (Config.accessToken Demo.fresh)
                               (BalancesList false)];
                file_writes := [] |}).
Proof.
  split; [reflexivity |]. split; [discriminate |].
  apply (empty_list_rendering
           (Demo.env (Demo.ok (Demo.enveloped "Balance" (JArr []))))
           (BalancesList false) Demo.fresh
           {| Http.status := 200;
              Http.body := Some (Demo.enveloped "Balance" (JArr [])) |}).
  - reflexivity.
  - discriminate.
  - reflexivity.
  - reflexivity.
Defined.




(** C10.  When the API client returns [null] for a singular lookup
    ([accounts get], [transactions get], [statements get]): with [--json]
    the command prints [null] and exits with status 0; in table mode it
    prints the heading, then reading the first property of [null] throws,
    the error is caught, its message goes to the error stream and the
    process exits with status 1. *)
Theorem get_of_nothing env c config response :
  is_get c = true ->
  Config.accessToken config <> "" ->
  axios env (request_of (Config.accessToken config) c)
  = Http.Resolved response ->
  extracted c (Http.body response) = Ok JNull ->
  run env c config
  = if json_flag_of c
    then (0%Z, {| store := config;
                  stdout := ["null"];
                  stderr := [];
                  spinner := [SpinStart (spinner_text c); SpinStop];
                  requests := [request_of (Config.accessToken config) c];
                  file_writes := [] |})
    else (1%Z, {| store := config;
                  stdout := [chalk env bold
                               (newline ++ heading c ++ newline)];
                  stderr := [error_line env
                               (fault_message env
                                  (ReadOfNull (first_field c)))];
                  spinner := [SpinStart (spinner_text c); SpinStop];
                  requests := [request_of (Config.accessToken config) c];
                  file_writes := [] |}).
Proof.
  intros Hc Ht Ha Hx. unfold run.
  destruct (action_run env c config (is_get_is_read c Hc) Ht)
    as (render & _ & Hg & _ & _ & Hrun).
  rewrite Hrun, (answer_resolved _ _ _ _ _ Ha Hx).
  destruct (json_flag_of c); [reflexivity |].
  cbv zeta. unfold try_catch. rewrite (Hg Hc). reflexivity.
Qed.

Lemma get_of_nothing_witness :
  is_get (StatementsGet "22289" "8sfhke-sifhkeuwe" false) = true
  /\ Config.accessToken Demo.fresh <> ""
  /\ run (Demo.env (Demo.ok (Demo.enveloped "Statement" (JArr []))))
       (StatementsGet "22289" "8sfhke-sifhkeuwe" false) Demo.fresh
     = (1%Z, {| store := Demo.fresh;
                stdout := [newline ++ "Statement Details" ++ newline];
                stderr := [cross_mark ++ " "
                             ++ "Cannot read properties of null (reading 'StatementId')"];
                spinner := [SpinStart "Fetching statement..."; SpinStop];
                requests := [request_of (Config.accessToken Demo.fresh)
                               (StatementsGet "22289" "8sfhke-sifhkeuwe"
                                  false)];
                file_writes := [] |}).
Proof.
  split; [reflexivity |]. split; [discriminate |].
  apply (get_of_nothing
           (Demo.env (Demo.ok (Demo.enveloped "Statement" (JArr []))))
           (StatementsGet "22289" "8sfhke-sifhkeuwe" false) Demo.fresh
           {| Http.status := 200;
              Http.body := Some (Demo.enveloped "Statement" (JArr [])) |}).
  - reflexivity.
  - discriminate.
  - reflexivity.
  - reflexivity.
Defined.

(* ================================================================== *)
(** * The settings store, further *)
(* ================================================================== *)

(** X2.  A token that is valid now was valid at every earlier moment, and a
    valid token is a configured one. *)
Theorem validity_is_monotone (now earlier : Z) (config : Config.Settings) :
  Config.hasValidToken now config = true ->
  (earlier <= now)%Z ->
  Config.hasValidToken earlier config = true
  /\ Config.isConfigured config = true.
Proof.
  unfold Config.hasValidToken, Config.isConfigured. cbn [Config.getConfig].
  destruct (Config.accessToken config) as [| a t];
    cbn [string_truthy is_empty negb]; [discriminate |].
  intros H Hle. split; [| reflexivity].
  apply Z.gtb_lt in H. apply Z.gtb_lt. lia.
Qed.

Lemma validity_is_monotone_witness :
  Config.hasValidToken 1700000000000 Demo.fresh = true
  /\ Config.hasValidToken 1600000000000 Demo.fresh = true
  /\ Config.isConfigured Demo.fresh = true.
Proof.
  split; [reflexivity |].
  apply (validity_is_monotone 1700000000000 1600000000000 Demo.fresh).
  - reflexivity.
  - lia.
Defined.

(* ================================================================== *)
(** * The config subcommands *)
(* ================================================================== *)

(** X3.  [config set --token t] stores [t], keeps the expiry, reports
    success and exits with status 0; a read subcommand that runs on the
    settings it leaves passes the gate and sends [t] as bearer token. *)
Theorem config_set_token_then_read env env' c config t :
  t <> "" ->
  is_read c = true ->
  run env (ConfigSet (Some t) None) config
  = (0%Z, {| store := {| Config.accessToken := t;
                         Config.tokenExpiry := Config.tokenExpiry config |};
             stdout := [chalk env green check_mark ++ " Access token set"];
             stderr := [];
             spinner := [];
             requests := [];
             file_writes := [{| Config.accessToken := t;
                                Config.tokenExpiry :=
                                  Config.tokenExpiry config |}] |})
  /\ requests
       (snd (run env' c
               (store (snd (run env (ConfigSet (Some t) None) config)))))
     = [request_of t c]
  /\ assoc "Authorization" (Http.headers (request_of t c))
     = Some ("Bearer " ++ t).
Proof.
  intros Ht Hc.
  assert (Hset : run env (ConfigSet (Some t) None) config
                 = (0%Z, {| store := {| Config.accessToken := t;
                                        Config.tokenExpiry :=
                                          Config.tokenExpiry config |};
                            stdout := [chalk env green check_mark
                                         ++ " Access token set"];
                            stderr := [];
                            spinner := [];
                            requests := [];
                            file_writes :=
                              [{| Config.accessToken := t;
                                  Config.tokenExpiry :=
                                    Config.tokenExpiry config |}] |})).
  { destruct t as [| a t]; [contradiction | reflexivity]. }
  split; [exact Hset |]. split; [| reflexivity].
  rewrite Hset. cbn [snd store].
  apply (run_requests env' c); [exact Hc | exact Ht].
Qed.

Lemma config_set_token_then_read_witness :
  "eyJhbGciOi" <> ""
  /\ is_read (BalancesList true) = true
  /\ requests
       (snd (run (Demo.env (Demo.ok (Demo.enveloped "Balance" (JArr []))))
               (BalancesList true)
               (store (snd (run (Demo.env Demo.unreachable)
                              (ConfigSet (Some "eyJhbGciOi") None)
                              Config.defaults)))))
     = [request_of "eyJhbGciOi" (BalancesList true)].
Proof.
  split; [discriminate |]. split; [reflexivity |].
  apply (config_set_token_then_read (Demo.env Demo.unreachable)
           (Demo.env (Demo.ok (Demo.enveloped "Balance" (JArr []))))
           (BalancesList true) Config.defaults "eyJhbGciOi").
  - discriminate.
  - reflexivity.
Defined.

(** X4.  [config set] writes only the keys it was given: without a
    [--token] value the stored token stays, without an [--expiry] value the
    stored expiry stays, and an empty value counts as none. *)
Theorem config_set_writes_only_given env token expiry config :
  (opt_truthy token = false ->
   Config.accessToken (store (snd (run env (ConfigSet token expiry) config)))
   = Config.accessToken config)
  /\ (opt_truthy expiry = false ->
      Config.tokenExpiry
        (store (snd (run env (ConfigSet token expiry) config)))
      = Config.tokenExpiry config)
  /\ (opt_truthy token = false ->
      opt_truthy expiry = false ->
      run env (ConfigSet token expiry) config
      = run env (ConfigSet None None) config).
Proof.
  unfold run; cbn [action]; unfold config_set, bind, write_store.
  destruct token as [[| a t] |], expiry as [[| b e] |];
    cbn [string_truthy opt_truthy is_empty negb andb Config.setConfig];
    repeat split; try discriminate; try reflexivity;
    destruct (parseInt (String b e)); reflexivity.
Qed.

Lemma config_set_writes_only_given_witness :
  opt_truthy (Some "") = false
  /\ Config.accessToken
       (store (snd (run (Demo.env Demo.unreachable)
                      (ConfigSet (Some "") (Some "1700003600000"))
                      Demo.expired)))
     = Config.accessToken Demo.expired.
Proof.
  split; [reflexivity |].
  apply (config_set_writes_only_given (Demo.env Demo.unreachable)
           (Some "") (Some "1700003600000") Demo.expired).
  reflexivity.
Defined.

(** X5.  [config clear] resets the settings to their defaults whatever
    they were, and every read subcommand that runs afterwards is refused at
    the gate: status 1 and no request. *)
Theorem config_clear_then_read env env' c config :
  is_read c = true ->
  run env ConfigClear config
  = (0%Z, {| store := Config.defaults;
             stdout := [chalk env green check_mark
                          ++ " Configuration cleared"];
             stderr := [];
             spinner := [];
             requests := [];
             file_writes := [Config.defaults] |})
  /\ fst (run env' c (store (snd (run env ConfigClear config)))) = 1%Z
  /\ requests (snd (run env' c (store (snd (run env ConfigClear config)))))
     = [].
Proof.
  intro Hc. split; [reflexivity |].
  change (store (snd (run env ConfigClear config))) with Config.defaults.
  rewrite (run_unconfigured env' c Config.defaults Hc eq_refl).
  split; reflexivity.
Qed.

Lemma config_clear_then_read_witness :
  is_read (AccountsList false) = true
  /\ fst (run (Demo.env (Demo.ok (Demo.enveloped "Account" (JArr []))))
            (AccountsList false)
            (store (snd (run (Demo.env Demo.unreachable) ConfigClear
                           Demo.fresh)))) = 1%Z.
Proof.
  split; [reflexivity |].
  apply (config_clear_then_read (Demo.env Demo.unreachable)
           (Demo.env (Demo.ok (Demo.enveloped "Account" (JArr []))))
           (AccountsList false) Demo.fresh).
  reflexivity.
Defined.

(** X6.  [config show] tells whether a token is stored and never what it
    is: two stores with the same expiry and some token each give the same
    output. *)
Theorem config_show_hides_token env t t' expiry :
  t <> "" ->
  t' <> "" ->
  fst (run env ConfigShow
         {| Config.accessToken := t; Config.tokenExpiry := expiry |})
  = fst (run env ConfigShow
           {| Config.accessToken := t'; Config.tokenExpiry := expiry |})
  /\ stdout (snd (run env ConfigShow
                    {| Config.accessToken := t;
                       Config.tokenExpiry := expiry |}))
     = stdout (snd (run env ConfigShow
                      {| Config.accessToken := t';
                         Config.tokenExpiry := expiry |}))
  /\ stderr (snd (run env ConfigShow
                    {| Config.accessToken := t;
                       Config.tokenExpiry := expiry |})) = [].
Proof.
  intros Ht Ht'.
  destruct t as [| a t]; [contradiction |].
  destruct t' as [| a' t']; [contradiction |].
  unfold run; cbn [action]; unfold config_show, bind, read_store.
  cbn [Config.getConfig store start Config.accessToken Config.tokenExpiry].
  destruct (expiry =? 0)%Z; repeat split.
Qed.

Lemma config_show_hides_token_witness :
  "eyJhbGciOi" <> "" /\ "c2VjcmV0" <> ""
  /\ stdout (snd (run (Demo.env Demo.unreachable) ConfigShow
                    {| Config.accessToken := "eyJhbGciOi";
                       Config.tokenExpiry := 0 |}))
     = stdout (snd (run (Demo.env Demo.unreachable) ConfigShow
                      {| Config.accessToken := "c2VjcmV0";
                         Config.tokenExpiry := 0 |})).
Proof.
  split; [discriminate |]. split; [discriminate |].
  apply (config_show_hides_token (Demo.env Demo.unreachable)
           "eyJhbGciOi" "c2VjcmV0" 0).
  - discriminate.
  - discriminate.
Defined.

(** X7.  [config show] prints no expiry line when the stored expiry is 0;
    otherwise the line shows the date as good when the expiry is later than
    [Date.now()] and as expired when it is not.  It has no margin: in the
    last 60000 ms before the expiry the date is shown as good although
    [hasValidToken] is already false. *)
Theorem config_show_expiry_line env config :
  (Config.tokenExpiry config = 0%Z ->
   List.length (stdout (snd (run env ConfigShow config))) = 3%nat)
  /\ (Config.tokenExpiry config <> 0%Z ->
      (Config.tokenExpiry config <= Date_now env)%Z ->
      nth_error (stdout (snd (run env ConfigShow config))) 2
      = Some ("Token Expiry: " ++ " "
                ++ chalk env red
                     ("expired ("
                        ++ toLocaleString env (Config.tokenExpiry config)
                        ++ ")")))
  /\ ((Date_now env < Config.tokenExpiry config)%Z ->
      Config.tokenExpiry config <> 0%Z ->
      nth_error (stdout (snd (run env ConfigShow config))) 2
      = Some ("Token Expiry: " ++ " "
                ++ chalk env green
                     (toLocaleString env (Config.tokenExpiry config))))
  /\ ((Date_now env < Config.tokenExpiry config)%Z ->
      (Config.tokenExpiry config <= Date_now env + 60000)%Z ->
      Config.hasValidToken (Date_now env) config = false).
Proof.
  unfold run; cbn [action]; unfold config_show, bind, read_store.
  cbn [Config.getConfig store start].
  repeat split.
  - intros ->. reflexivity.
  - intros Hnz Hle. apply Z.eqb_neq in Hnz. rewrite Hnz.
    destruct (Z.gtb_spec (Config.tokenExpiry config) (Date_now env));
      [lia | reflexivity].
  - intros Hlt Hnz. apply Z.eqb_neq in Hnz. rewrite Hnz.
    destruct (Z.gtb_spec (Config.tokenExpiry config) (Date_now env));
      [reflexivity | lia].
  - intros Hlt Hle. unfold Config.hasValidToken. cbn [Config.getConfig].
    destruct (negb (string_truthy (Config.accessToken config)));
      [reflexivity |].
    destruct (Z.gtb_spec (Config.tokenExpiry config)
                (Date_now env + 60000)); [lia | reflexivity].
Qed.

Lemma config_show_expiry_line_witness :
  (Date_now (Demo.env Demo.unreachable)
   < Config.tokenExpiry {| Config.accessToken := "eyJhbGciOi";
                           Config.tokenExpiry := 1700000030000 |})%Z
  /\ Config.hasValidToken (Date_now (Demo.env Demo.unreachable))
       {| Config.accessToken := "eyJhbGciOi";
          Config.tokenExpiry := 1700000030000 |} = false.
Proof.
  split; [reflexivity |].
  apply (config_show_expiry_line (Demo.env Demo.unreachable)
           {| Config.accessToken := "eyJhbGciOi";
              Config.tokenExpiry := 1700000030000 |}).
  - reflexivity.
  - cbn. lia.
Defined.

(* ================================================================== *)
(** * Decimal numbers through [parseInt] *)
(* ================================================================== *)

Lemma read_digits_pos d a :
  read_digits 10 (NilEmpty.string_of_uint d) (Some (Z.pos a))
  = Some (Z.pos (Pos.of_uint_acc d a)).
Proof.
  revert a.
  induction d; intro a; cbn [NilEmpty.string_of_uint Pos.of_uint_acc];
    try reflexivity;
    (unfold read_digits; fold read_digits;
     match goal with
     | |- context [digit_value ?ch] =>
         let v := eval vm_compute in (digit_value ch) in
         change (digit_value ch) with v
     end;
     cbv beta iota;
     change (_ <? 10)%Z with true; cbv iota;
     rewrite <- IHd; f_equal; f_equal; lia).
Qed.

Lemma read_digits_zero d :
  read_digits 10 (NilEmpty.string_of_uint d) (Some 0%Z)
  = Some (Z.of_N (Pos.of_uint d)).
Proof.
  induction d; cbn [NilEmpty.string_of_uint Pos.of_uint];
    try reflexivity;
    (unfold read_digits; fold read_digits;
     match goal with
     | |- context [digit_value ?ch] =>
         let v := eval vm_compute in (digit_value ch) in
         change (digit_value ch) with v
     end;
     cbv beta iota;
     change (_ <? 10)%Z with true; cbv iota;
     first [ exact IHd | apply read_digits_pos ]).
Qed.

(** [parseInt] of a string that starts with one or two known digits: what
    is left is to read the rest. *)
Ltac parse_known_digits :=
  match goal with
  | |- parseInt (String ?c1 (String ?c2 ?rest)) = _ =>
      let acc := eval vm_compute in
        (read_digits 10 (String c1 (String c2 EmptyString)) None) in
      change (parseInt (String c1 (String c2 rest)))
        with (option_map (Z.mul 1) (read_digits 10 rest acc))
  | |- parseInt (String ?c1 ?rest) = _ =>
      let acc := eval vm_compute in
        (read_digits 10 (String c1 EmptyString) None) in
      change (parseInt (String c1 rest))
        with (option_map (Z.mul 1) (read_digits 10 rest acc))
  end.

Lemma parseInt_uint d :
  parseInt (NilZero.string_of_uint d) = Some (Z.of_N (Pos.of_uint d)).
Proof.
  destruct d as [| d | d | d | d | d | d | d | d | d | d];
    try reflexivity;
    unfold NilZero.string_of_uint; cbn [NilEmpty.string_of_uint];
    [destruct d; try reflexivity; cbn [NilEmpty.string_of_uint] | ..];
    parse_known_digits;
    first [rewrite read_digits_zero | rewrite read_digits_pos];
    cbn [option_map]; rewrite Z.mul_1_l; reflexivity.
Qed.

(** The decimal rendering of a non-negative integer reads back as that
    integer. *)
Lemma parseInt_Z_to_string n :
  (0 <= n)%Z -> parseInt (Z_to_string n) = Some n.
Proof.
  intro Hn. unfold Z_to_string.
  rewrite <- (DecimalZ.of_to n) at 2.
  destruct n as [| p | p]; [reflexivity | | lia].
  cbn [Z.to_int NilZero.string_of_int Z.of_int].
  rewrite parseInt_uint. reflexivity.
Qed.

Lemma Z_to_string_not_empty n :
  (0 <= n)%Z -> string_truthy (Z_to_string n) = true.
Proof.
  intro Hn. unfold Z_to_string.
  destruct n as [| p | p]; [reflexivity | | lia].
  cbn [Z.to_int NilZero.string_of_int].
  unfold NilZero.string_of_uint.
  destruct (Pos.to_uint p); reflexivity.
Qed.

(** X8.  [config set --expiry n], with [n] written in decimal and in the
    range a number holds exactly, stores the integer [n], keeps the token,
    reports success and exits with status 0. *)
Theorem config_set_expiry_roundtrip env config n :
  (0 <= n <= MAX_SAFE_INTEGER)%Z ->
  run env (ConfigSet None (Some (Z_to_string n))) config
  = (0%Z, {| store := {| Config.accessToken := Config.accessToken config;
                         Config.tokenExpiry := n |};
             stdout := [chalk env green check_mark ++ " Token expiry set"];
             stderr := [];
             spinner := [];
             requests := [];
             file_writes := [{| Config.accessToken :=
                                  Config.accessToken config;
                                Config.tokenExpiry := n |}] |}).
Proof.
  intros [Hn _].
  unfold run; cbn [action]; unfold config_set, bind, write_store.
  cbn [opt_truthy].
  rewrite (Z_to_string_not_empty n Hn).
  cbn [Config.setConfig negb andb].
  rewrite (parseInt_Z_to_string n Hn). reflexivity.
Qed.

Lemma config_set_expiry_roundtrip_witness :
  (0 <= 1234567890000 <= MAX_SAFE_INTEGER)%Z
  /\ run (Demo.env Demo.unreachable)
       (ConfigSet None (Some (Z_to_string 1234567890000))) Demo.fresh
     = (0%Z, {| store := {| Config.accessToken :=
                              Config.accessToken Demo.fresh;
                            Config.tokenExpiry := 1234567890000 |};
                stdout := [check_mark ++ " Token expiry set"];
                stderr := [];
                spinner := [];
                requests := [];
                file_writes := [{| Config.accessToken :=
                                     Config.accessToken Demo.fresh;
                                   Config.tokenExpiry := 1234567890000 |}] |}).
Proof.
  split; [unfold MAX_SAFE_INTEGER; lia |].
  apply (config_set_expiry_roundtrip (Demo.env Demo.unreachable)
           Demo.fresh 1234567890000).
  unfold MAX_SAFE_INTEGER; lia.
Defined.

(* ================================================================== *)
(** * Runs of a read subcommand, further *)
(* ================================================================== *)

Lemma spinner_blind_to_stdout : blind_to_stdout spinner.
Proof. intros line w; reflexivity. Qed.

Lemma spinner_blind_to_stderr : blind_to_stderr spinner.
Proof. intros line w; reflexivity. Qed.

Lemma stdout_blind_to_stderr : blind_to_stderr stdout.
Proof. intros line w; reflexivity. Qed.

Lemma preserves_write_store_spinner f : preserves spinner (write_store f).
Proof.
  intro w. unfold write_store. destruct (f (store w)); reflexivity.
Qed.

#[local] Hint Resolve spinner_blind_to_stdout spinner_blind_to_stderr
  stdout_blind_to_stderr preserves_write_store_spinner : frame.

Lemma preserves_config_spinner env c :
  is_config c = true -> preserves spinner (action env c).
Proof.
  destruct c; try discriminate; intros _; cbn [action];
    unfold config_set, config_show, config_clear; frame.
Qed.

(** The rendering in its [try] block touches nothing that is blind to the
    two output streams. *)
Lemma rendering_keeps {X} (P : World -> X) env (render : json -> M unit) x w :
  (forall X (P : World -> X),
     blind_to_stdout P -> forall x, preserves P (render x)) ->
  blind_to_stdout P ->
  blind_to_stderr P ->
  P (snd (try_catch (render x) (report env) w)) = P w.
Proof.
  intros Hf H1 H2.
  assert (H : preserves P (try_catch (render x) (report env))).
  { apply preserves_try_catch; [apply Hf; exact H1 |].
    intro e. apply preserves_report. exact H2. }
  apply H.
Qed.

(** What a run leaves in the request log and on the spinner. *)
Lemma run_network env c config :
  (spinner (snd (run env c config)) = []
   /\ requests (snd (run env c config)) = [])
  \/ (is_read c = true
      /\ Config.accessToken config <> ""
      /\ spinner (snd (run env c config))
         = [SpinStart (spinner_text c); SpinStop]
      /\ requests (snd (run env c config))
         = [request_of (Config.accessToken config) c]).
Proof.
  destruct (is_config c) eqn:Hk.
  - left. unfold run.
    pose proof (preserves_config_spinner env c Hk (start config)) as H1.
    pose proof (preserves_config_requests env c Hk (start config)) as H2.
    destruct (action env c (start config)) as [o w]. split; assumption.
  - assert (Hc : is_read c = true)
      by (unfold is_read; rewrite Hk; reflexivity).
    destruct (string_dec (Config.accessToken config) "") as [Ht | Ht].
    + left. rewrite (run_unconfigured env c config Hc Ht). split; reflexivity.
    + right. split; [exact Hc |]. split; [exact Ht |].
      split; [| exact (run_requests env c config Hc Ht)].
      unfold run.
      destruct (action_run env c config Hc Ht)
        as (render & _ & _ & Hf & _ & Hrun).
      rewrite Hrun. cbv zeta.
      destruct (answer env (Config.accessToken config) c) as [x | e];
        [| reflexivity].
      destruct (json_flag_of c); [reflexivity |].
      pose proof (rendering_keeps spinner env render x
                    (spun SpinStop
                       (in_flight (Config.accessToken config) c
                          (start config)))
                    Hf spinner_blind_to_stdout spinner_blind_to_stderr)
        as H.
      destruct (try_catch (render x) (report env) _) as [o w].
      exact H.
Qed.

(** X9.  Whatever the subcommand, the settings and the answer of the
    remote end, when a run has ended it has sent at most one request, and
    it has sent one exactly when the spinner was used: either nothing was
    sent and the spinner never started, or the subcommand is a read
    subcommand with a stored token, its one request was sent, and the
    spinner was started once, with the subcommand's text, and stopped
    once. *)
Theorem one_request_inside_one_spinner env c config :
  (List.length (requests (snd (run env c config))) <= 1)%nat
  /\ ((spinner (snd (run env c config)) = []
       /\ requests (snd (run env c config)) = [])
      \/ (is_read c = true
          /\ Config.accessToken config <> ""
          /\ spinner (snd (run env c config))
             = [SpinStart (spinner_text c); SpinStop]
          /\ requests (snd (run env c config))
             = [request_of (Config.accessToken config) c])).
Proof.
  pose proof (run_network env c config) as H. split; [| exact H].
  destruct H as [[_ ->] | (_ & _ & _ & ->)]; cbn; lia.
Qed.

(** X10.  Every request a run sends is a [GET] below the base URL, without
    a body, whose headers are the stored token as bearer token and the two
    JSON content types. *)
Theorem requests_are_bearer_gets env c config :
  Forall
    (fun r =>
       Http.method r = "GET"
       /\ Http.data r = undefined
       /\ Http.url r = Api.BASE_URL ++ endpoint c
       /\ Http.headers r
          = [ ("Authorization", "Bearer " ++ Config.accessToken config);
              ("Accept", "application/json");
              ("Content-Type", "application/json") ])
    (requests (snd (run env c config))).
Proof.
  destruct (run_network env c config) as [[_ ->] | (_ & _ & _ & ->)].
  - constructor.
  - constructor; [| constructor]. repeat split.
Qed.

(** X11.  A run that ends, ends with status 0 or 1, and for a read
    subcommand the status is 0 exactly when the program printed no error
    line with [console.error] (what the spinner draws is not counted). *)
Theorem exit_status_tells_errors env c config :
  (fst (run env c config) = 0%Z \/ fst (run env c config) = 1%Z)
  /\ (is_read c = true ->
      (fst (run env c config) = 0%Z
       <-> stderr (snd (run env c config)) = [])).
Proof.
  split; [apply exit_status_zero_or_one |].
  intro Hc.
  destruct (string_dec (Config.accessToken config) "") as [Ht | Ht].
  - rewrite (run_unconfigured env c config Hc Ht). cbn [fst snd stderr].
    split; discriminate.
  - destruct (run_exit_status env c config Hc Ht)
      as [[H1 H2] | [H1 [e H2]]]; rewrite H1, H2; split;
      try discriminate; reflexivity.
Qed.

Lemma exit_status_tells_errors_witness :
  is_read (AccountsList false) = true
  /\ (fst (run (Demo.env (Demo.failed 429 JNull)) (AccountsList false)
             Demo.fresh) = 0%Z
      <-> stderr (snd (run (Demo.env (Demo.failed 429 JNull))
                         (AccountsList false) Demo.fresh)) = []).
Proof.
  split; [reflexivity |].
  apply (exit_status_tells_errors (Demo.env (Demo.failed 429 JNull))
           (AccountsList false) Demo.fresh).
  reflexivity.
Defined.



(* ================================================================== *)
(** * The envelope *)
(* ================================================================== *)

Lemma run_of_answer env c config :
  is_read c = true ->
  Config.accessToken config <> "" ->
  forall e,
    answer env (Config.accessToken config) c = Raise e ->
    run env c config
    = (1%Z, {| store := config;
               stdout := [];
               stderr := [error_line env (message_of env e)];
               spinner := [SpinStart (spinner_text c); SpinStop];
               requests := [request_of (Config.accessToken config) c];
               file_writes := [] |}).
Proof.
  intros Hc Ht e He. unfold run.
  destruct (action_run env c config Hc Ht)
    as (render & _ & _ & _ & _ & Hrun).
  rewrite Hrun, He. reflexivity.
Qed.

(** X13.  A successful response with the body [null] is an error for
    every read subcommand: reading [Data] of [null] throws, the command
    prints the engine's message and exits with status 1, with nothing on
    the output stream. *)
Theorem null_body_is_an_error env c config response :
  is_read c = true ->
  Config.accessToken config <> "" ->
  axios env (request_of (Config.accessToken config) c)
  = Http.Resolved response ->
  Http.body response = Some JNull ->
  run env c config
  = (1%Z, {| store := config;
             stdout := [];
             stderr := [error_line env
                          (fault_message env (ReadOfNull "Data"))];
             spinner := [SpinStart (spinner_text c); SpinStop];
             requests := [request_of (Config.accessToken config) c];
             file_writes := [] |}).
Proof.
  intros Hc Ht Ha Hb.
  apply (run_of_answer env c config Hc Ht (TypeError (ReadOfNull "Data"))).
  unfold answer. rewrite Ha. unfold extracted, Api.first_of, Api.named_array.
  rewrite Hb. destruct (is_get c); reflexivity.
Qed.

Lemma null_body_is_an_error_witness :
  is_read (BeneficiariesList true) = true
  /\ Config.accessToken Demo.fresh <> ""
  /\ run (Demo.env (Demo.ok JNull)) (BeneficiariesList true) Demo.fresh
     = (1%Z, {| store := Demo.fresh;
                stdout := [];
                stderr := [cross_mark ++ " "
                             ++ "Cannot read properties of null (reading 'Data')"];
                spinner := [SpinStart "Fetching beneficiaries..."; SpinStop];
                requests := [request_of (Config.accessToken Demo.fresh)
                               (BeneficiariesList true)];
                file_writes := [] |}).
Proof.
  split; [reflexivity |]. split; [discriminate |].
  apply (null_body_is_an_error (Demo.env (Demo.ok JNull))
           (BeneficiariesList true) Demo.fresh
           {| Http.status := 200; Http.body := Some JNull |}).
  - reflexivity.
  - discriminate.
  - reflexivity.
  - reflexivity.
Defined.

(** X14.  A body that is not [null] but lacks the [Data] object, or whose
    [Data] lacks the array of the subcommand, counts as an empty result: a
    list subcommand prints the "No results found." notice, or [[]] with
    [--json], and exits with status 0. *)
Theorem missing_envelope_is_empty env c config response j :
  is_list c = true ->
  Config.accessToken config <> "" ->
  axios env (request_of (Config.accessToken config) c)
  = Http.Resolved response ->
  Http.body response = Some j ->
  j <> JNull ->
  member_opt (prop j "Data") (envelope c) = undefined ->
  run env c config
  = (0%Z, {| store := config;
             stdout := [if json_flag_of c then "[]"
                        else chalk env yellow "No results found."];
             stderr := [];
             spinner := [SpinStart (spinner_text c); SpinStop];
             requests := [request_of (Config.accessToken config) c];
             file_writes := [] |}).
Proof.
  intros Hc Ht Ha Hb Hj Hm. unfold run.
  destruct (action_run env c config (is_list_is_read c Hc) Ht)
    as (render & Hl & _ & _ & _ & Hrun).
  assert (Hx : answer env (Config.accessToken config) c = Ok (JArr [])).
  { unfold answer. rewrite Ha, Hb. unfold extracted.
    unfold is_list in Hc. apply andb_prop in Hc. destruct Hc as [_ Hg].
    apply negb_true_iff in Hg. rewrite Hg.
    unfold Api.named_array. cbn [vmember].
    destruct j; try contradiction; cbn [member rbind];
      rewrite Hm; reflexivity. }
  rewrite Hrun, Hx, (Hl Hc).
  destruct (json_flag_of c); reflexivity.
Qed.

Lemma missing_envelope_is_empty_witness :
  is_list (DirectDebitsList false) = true
  /\ Config.accessToken Demo.fresh <> ""
  /\ run (Demo.env (Demo.ok (JObj [("Links", JObj [])])))
       (DirectDebitsList false) Demo.fresh
     = (0%Z, {| store := Demo.fresh;
                stdout := ["No results found."];
                stderr := [];
                spinner := [SpinStart "Fetching direct debits..."; SpinStop];
                requests := [request_of (Config.accessToken Demo.fresh)
                               (DirectDebitsList false)];
                file_writes := [] |}).
Proof.
  split; [reflexivity |]. split; [discriminate |].
  apply (missing_envelope_is_empty
           (Demo.env (Demo.ok (JObj [("Links", JObj [])])))
           (DirectDebitsList false) Demo.fresh
           {| Http.status := 200;
              Http.body := Some (JObj [("Links", JObj [])]) |}
           (JObj [("Links", JObj [])])).
  - reflexivity.
  - discriminate.
  - reflexivity.
  - reflexivity.
  - discriminate.
  - reflexivity.
Defined.

(* ================================================================== *)
(** * Errors of the HTTP library, further *)
(* ================================================================== *)

(** X15.  For a status other than 401, 403, 404 and 429 whose body has no
    truthy [message], the text of the generic API error is the body's
    [error] when that is a non-empty string, and the body as
    [JSON.stringify] renders it when there is no truthy [error] either. *)
Theorem generic_error_message_fallback env c config error r d :
  is_read c = true ->
  Config.accessToken config <> "" ->
  axios env (request_of (Config.accessToken config) c)
  = Http.Rejected error ->
  Http.response error = Some r ->
  Http.body r = Some d ->
  Http.status r <> 401%Z -> Http.status r <> 403%Z ->
  Http.status r <> 404%Z -> Http.status r <> 429%Z ->
  vtruthy (member_opt (Http.body r) "message") = false ->
  (forall e,
     e <> "" ->
     member_opt (Http.body r) "error" = Some (JStr e) ->
     stderr (snd (run env c config))
     = [error_line env
          ("API Error (" ++ Z_to_string (Http.status r) ++ "): " ++ e)])
  /\ (vtruthy (member_opt (Http.body r) "error") = false ->
      stderr (snd (run env c config))
      = [error_line env
           ("API Error (" ++ Z_to_string (Http.status r) ++ "): "
              ++ JSON_stringify d)]).
Proof.
  intros Hc Ht Ha Hr Hd H1 H2 H3 H4 Hm.
  rewrite (run_of_answer env c config Hc Ht _
             (answer_rejected _ _ _ _ Ha)).
  cbn [snd stderr]. unfold Api.handleApiError. rewrite Hr.
  apply Z.eqb_neq in H1, H2, H3, H4. rewrite H1, H2, H3, H4.
  cbn [message_of]. unfold Api.remote_message, or_value. rewrite Hm.
  split.
  - intros e He Herr. rewrite Herr.
    destruct e as [| a e]; [contradiction | reflexivity].
  - intro Herr. rewrite Herr, Hd. reflexivity.
Qed.

Lemma generic_error_message_fallback_witness :
  is_read (AccountsList true) = true
  /\ Config.accessToken Demo.fresh <> ""
  /\ stderr (snd (run (Demo.env (Demo.failed 503 (JArr [])))
                    (AccountsList true) Demo.fresh))
     = [cross_mark ++ " " ++ "API Error (503): []"].
Proof.
  split; [reflexivity |]. split; [discriminate |].
  apply (generic_error_message_fallback
           (Demo.env (Demo.failed 503 (JArr [])))
           (AccountsList true) Demo.fresh
           {| Http.response := Some {| Http.status := 503;
                                       Http.body := Some (JArr []) |};
              Http.request := true;
              Http.message :=
                "Request failed with status code " ++ Z_to_string 503 |}
           {| Http.status := 503; Http.body := Some (JArr []) |}
           (JArr [])).
  - reflexivity.
  - discriminate.
  - reflexivity.
  - reflexivity.
  - reflexivity.
  - discriminate.
  - discriminate.
  - discriminate.
  - discriminate.
  - reflexivity.
  - reflexivity.
Defined.

(** X16.  An error of the HTTP library that carries neither a response nor
    a request is thrown on as it is: the command prints the library's own
    message and exits with status 1. *)
Theorem setup_error_is_rethrown env c config error :
  is_read c = true ->
  Config.accessToken config <> "" ->
  axios env (request_of (Config.accessToken config) c)
  = Http.Rejected error ->
  Http.response error = None ->
  Http.request error = false ->
  run env c config
  = (1%Z, {| store := config;
             stdout := [];
             stderr := [error_line env (Http.message error)];
             spinner := [SpinStart (spinner_text c); SpinStop];
             requests := [request_of (Config.accessToken config) c];
             file_writes := [] |}).
Proof.
  intros Hc Ht Ha Hr Hq.
  rewrite (run_of_answer env c config Hc Ht _
             (answer_rejected _ _ _ _ Ha)).
  unfold Api.handleApiError. rewrite Hr, Hq. reflexivity.
Qed.

Lemma setup_error_is_rethrown_witness :
  is_read (StatementsList "22289" false) = true
  /\ Config.accessToken Demo.fresh <> ""
  /\ run (Demo.env setup_failure) (StatementsList "22289" false) Demo.fresh
     = (1%Z, {| store := Demo.fresh;
                stdout := [];
                stderr := [cross_mark ++ " " ++ "Invalid URL"];
                spinner := [SpinStart "Fetching statements..."; SpinStop];
                requests := [request_of (Config.accessToken Demo.fresh)
                               (StatementsList "22289" false)];
                file_writes := [] |}).
Proof.
  split; [reflexivity |]. split; [discriminate |].
  apply (setup_error_is_rethrown (Demo.env setup_failure)
           (StatementsList "22289" false) Demo.fresh
           {| Http.response := None;
              Http.request := false;
              Http.message := "Invalid URL" |}).
  - reflexivity.
  - discriminate.
  - reflexivity.
  - reflexivity.
  - reflexivity.
Defined.

(* ================================================================== *)
(** * Query parameters, further *)
(* ================================================================== *)

Lemma assign_if_values k x o :
  Forall (fun kv : string * string => snd kv <> "") o ->
  Forall (fun kv : string * string => snd kv <> "") (Api.assign_if k x o).
Proof.
  intro Ho. unfold Api.assign_if.
  destruct x as [[| a v] |]; cbn [string_truthy is_empty negb];
    try exact Ho.
  induction Ho as [| [k' v'] r Hv Hr IH]; cbn [assign].
  - constructor; [discriminate | constructor].
  - destruct (String.eqb k k').
    + constructor; [discriminate | exact Hr].
    + constructor; [exact Hv | exact IH].
Qed.

(** X17.  No request ever carries a query parameter with an empty value:
    an empty [--from] or [--to] is dropped like an omitted one, so the run
    is the same as without the option. *)
Theorem empty_dates_are_never_sent env c config :
  Forall
    (fun r =>
       match Http.params r with
       | Some ps => Forall (fun kv : string * string => snd kv <> "") ps
       | None => True
       end)
    (requests (snd (run env c config)))
  /\ (forall a to j,
        run env (AccountsTransactions a (Some "") to j) config
        = run env (AccountsTransactions a None to j) config)
  /\ (forall a from j,
        run env (AccountsTransactions a from (Some "") j) config
        = run env (AccountsTransactions a from None j) config)
  /\ (forall to j,
        run env (TransactionsList (Some "") to j) config
        = run env (TransactionsList None to j) config)
  /\ (forall from j,
        run env (TransactionsList from (Some "") j) config
        = run env (TransactionsList from None j) config).
Proof.
  split; [| repeat split; intros; reflexivity].
  destruct (run_network env c config) as [[_ ->] | (_ & _ & _ & ->)].
  - constructor.
  - constructor; [| constructor].
    cbn [request_of Api.request_config Http.params].
    destruct c; cbn [query]; try exact I;
      apply assign_if_values, assign_if_values; constructor.
Qed.

(* ================================================================== *)
(** * The details of a singular lookup *)
(* ================================================================== *)



(* ================================================================== *)
(** * Tables *)
(* ================================================================== *)

Section Tables.
Local Open Scope nat_scope.

(** ** Lengths of strings *)

Lemma length_append s1 s2 :
  String.length (s1 ++ s2) = String.length s1 + String.length s2.
Proof. induction s1 as [| a s1 IH]; cbn; [| rewrite IH]; reflexivity. Qed.

Lemma length_repeat_space n : String.length (repeat_string " " n) = n.
Proof. induction n as [| n IH]; cbn; [| rewrite IH]; reflexivity. Qed.

Lemma length_substring0 n s :
  String.length (substring0 n s) = Nat.min n (String.length s).
Proof.
  revert s. induction n as [| n IH]; intros [| a s]; cbn;
    try reflexivity.
  rewrite IH. reflexivity.
Qed.

Lemma length_padEnd n s :
  String.length (padEnd n s) = Nat.max n (String.length s).
Proof.
  unfold padEnd. rewrite length_append, length_repeat_space. lia.
Qed.

Lemma length_join sep l :
  String.length (join sep l)
  = list_sum (map String.length l)
    + String.length sep * (List.length l - 1).
Proof.
  induction l as [| x [| y r] IH].
  - cbn. lia.
  - cbn. lia.
  - change (join sep (x :: y :: r)) with (x ++ sep ++ join sep (y :: r)).
    rewrite !length_append, IH. cbn [map list_sum List.length].
    replace (S (S (List.length r)) - 1) with (S (S (List.length r) - 1))
      by lia.
    rewrite Nat.mul_succ_r. unfold list_sum. cbn [fold_right]. lia.
Qed.

(** ** The widths object *)

Lemma assoc_assign_same {A} k (v : A) o : assoc k (assign k v o) = Some v.
Proof.
  induction o as [| [k' v'] r IH]; cbn.
  - rewrite String.eqb_refl. reflexivity.
  - destruct (String.eqb k k') eqn:E; cbn; rewrite ?String.eqb_refl, ?E;
      [reflexivity | exact IH].
Qed.

Lemma assoc_assign_other {A} k k' (v : A) o :
  k <> k' -> assoc k' (assign k v o) = assoc k' o.
Proof.
  intro Hk. induction o as [| [k0 v0] r IH]; cbn.
  - destruct (String.eqb_spec k' k); [congruence | reflexivity].
  - destruct (String.eqb_spec k k0) as [-> | Hk0]; cbn.
    + destruct (String.eqb_spec k' k0); [congruence | reflexivity].
    + destruct (String.eqb_spec k' k0); [reflexivity | exact IH].
Qed.

Lemma width_of_assign_same k v ws : width_of (assign k v ws) k = v.
Proof. unfold width_of. rewrite assoc_assign_same. reflexivity. Qed.

Lemma width_of_assign_other k k' v ws :
  k <> k' -> width_of (assign k v ws) k' = width_of ws k'.
Proof.
  intro Hk. unfold width_of. rewrite assoc_assign_other by exact Hk.
  reflexivity.
Qed.

(** Measuring the rows of a column only widens that column. *)
Lemma measure_rows_widths c rows ws ws' :
  measure_rows c rows ws = Ok ws' ->
  width_of ws (key c) <= width_of ws' (key c)
  /\ (forall k, key c <> k -> width_of ws' k = width_of ws k)
  /\ Forall (fun row => exists val, cell c row = Ok val) rows.
Proof.
  revert ws. induction rows as [| row rest IH]; intros ws H;
    cbn [measure_rows] in H.
  - injection H as <-.
    split; [lia |]. split; [reflexivity | constructor].
  - destruct (cell c row) as [val | e] eqn:Hcell; cbn [rbind] in H;
      [| discriminate].
    destruct (Nat.ltb (width_of ws (key c)) (String.length val)) eqn:E;
      apply IH in H; destruct H as (Hle & Hother & Hcells).
    + apply Nat.ltb_lt in E.
      rewrite width_of_assign_same in Hle. split; [lia |]. split.
      * intros k Hk. rewrite Hother by exact Hk.
        apply width_of_assign_other. exact Hk.
      * constructor; [exists val; exact Hcell | exact Hcells].
    + split; [exact Hle |]. split; [exact Hother |].
      constructor; [exists val; exact Hcell | exact Hcells].
Qed.

(** Once every column is measured, each width lies between the length of
    its label and 40, and every cell of every row has a value. *)
Lemma measure_widths data columns ws ws' :
  well_formed columns ->
  measure data columns ws = Ok ws' ->
  (forall k, ~ In k (map key columns) -> width_of ws' k = width_of ws k)
  /\ Forall (fun c => String.length (label c) <= width_of ws' (key c) <= 40)
       columns
  /\ (forall rows,
        forEach data = Ok rows ->
        Forall (fun c =>
                  Forall (fun row => exists val, cell c row = Ok val) rows)
          columns).
Proof.
  intros [Hnd Hlab]. revert ws.
  induction columns as [| c rest IH]; intros ws H; cbn [measure] in H.
  - injection H as <-.
    split; [reflexivity |]. split; [constructor | intros; constructor].
  - cbn [map] in Hnd. apply NoDup_cons_iff in Hnd. destruct Hnd as [Hk Hnd].
    apply Forall_cons_iff in Hlab. destruct Hlab as [Hc Hlab].
    destruct (forEach data) as [rows | e] eqn:Hrows; cbn [rbind] in H;
      [| discriminate].
    destruct (measure_rows c rows _) as [ws2 | e] eqn:Hm; cbn [rbind] in H;
      [| discriminate].
    apply measure_rows_widths in Hm. destruct Hm as (Hle & Hother & Hcells).
    rewrite width_of_assign_same in Hle.
    apply IH in H; [| exact Hnd | exact Hlab].
    destruct H as (Hout & Hin & Hall).
    split; [| split].
    + intros k Hnot. cbn [map In] in Hnot.
      rewrite Hout by tauto.
      rewrite width_of_assign_other by tauto.
      rewrite Hother by tauto.
      apply width_of_assign_other. tauto.
    + constructor; [| exact Hin].
      rewrite Hout by exact Hk. rewrite width_of_assign_same. lia.
    + intros rows' Hrows'. constructor.
      * assert (rows' = rows) by congruence. subst rows'. exact Hcells.
      * apply Hall. exact Hrows'.
Qed.

(** ** The lines *)

Lemma rmap_ok {A B} (f : A -> Result B) l :
  Forall (fun x => exists y, f x = Ok y) l ->
  exists ys, rmap f l = Ok ys /\ Forall2 (fun x y => f x = Ok y) l ys.
Proof.
  induction 1 as [| x r [y Hy] Hr [ys [Hys Hall]]]; cbn.
  - exists []. split; [reflexivity | constructor].
  - rewrite Hy, Hys. cbn. exists (y :: ys). split; [reflexivity |].
    constructor; assumption.
Qed.

(** A row whose cells all have a value gives a line, as long as the
    header when no label is wider than its column. *)
Lemma row_line_length columns ws row :
  Forall (fun c => String.length (label c) <= width_of ws (key c)) columns ->
  Forall (fun c => exists val, cell c row = Ok val) columns ->
  exists line,
    row_line columns ws row = Ok line
    /\ String.length line
       = String.length
           (join "  " (map (fun c => padEnd (width_of ws (key c)) (label c))
                           columns)).
Proof.
  intros Hlab Hcells. unfold row_line.
  destruct (rmap_ok
              (fun c =>
                 rbind (cell c row) (fun val =>
                   Ok (padEnd (width_of ws (key c))
                         (substring0 (width_of ws (key c)) val))))
              columns) as (cells & Hmap & Hall).
  { eapply Forall_impl; [| exact Hcells].
    intros c [val Hval]. rewrite Hval. cbn. eexists. reflexivity. }
  rewrite Hmap. cbn [rbind]. eexists. split; [reflexivity |].
  rewrite !length_join. rewrite length_map.
  rewrite <- (Forall2_length Hall). f_equal.
  f_equal. rewrite map_map.
  clear Hmap Hcells. induction Hall as [| c cell' r cells' Hc Hr IH]; cbn.
  - reflexivity.
  - apply Forall_cons_iff in Hlab. destruct Hlab as [Hl Hlab].
    rewrite (IH Hlab). f_equal.
    destruct (cell c row) as [val |]; cbn in Hc; [| discriminate].
    injection Hc as <-.
    rewrite !length_padEnd, length_substring0. lia.
Qed.

Lemma stdout_written_all lines w :
  stdout (written_all lines w) = (stdout w ++ lines)%list.
Proof.
  unfold written_all. revert w.
  induction lines as [| line rest IH]; intro w; cbn.
  - rewrite app_nil_r. reflexivity.
  - rewrite IH. cbn. rewrite <- app_assoc. reflexivity.
Qed.

Lemma print_rows_lines columns ws rows (n : nat) w :
  Forall (fun row =>
            exists line,
              row_line columns ws row = Ok line /\ String.length line = n)
    rows ->
  exists lines,
    print_rows columns ws rows w = (Ret tt, written_all lines w)
    /\ List.length lines = List.length rows
    /\ Forall (fun line => String.length line = n) lines.
Proof.
  intro H. revert w.
  induction H as [| row rest (line & Hline & Hlen) Hrest IH]; intro w.
  - exists []. repeat split. constructor.
  - cbn [print_rows]. unfold bind at 1. rewrite Hline. cbn [lift ret].
    unfold bind at 1. cbn [console_log].
    destruct (IH (written line w)) as (lines & Hrun & Hcount & Hall).
    rewrite Hrun. exists (line :: lines). repeat split.
    + cbn. rewrite Hcount. reflexivity.
    + constructor; assumption.
Qed.

End Tables.

Section TableOutput.
Local Open Scope nat_scope.

Lemma written_all_app l1 l2 w :
  written_all (l1 ++ l2)%list w = written_all l2 (written_all l1 w).
Proof. unfold written_all. apply fold_left_app. Qed.

Lemma list_sum_bound (l : list nat) (b : nat) :
  Forall (fun n => n <= b) l -> list_sum l <= b * List.length l.
Proof.
  induction 1 as [| n r Hn Hr IH]; unfold list_sum in *;
    cbn [fold_right List.length]; lia.
Qed.

Lemma Forall_transpose {A B} (P : A -> B -> Prop) (xs : list A) ys :
  Forall (fun x => Forall (P x) ys) xs ->
  Forall (fun y => Forall (fun x => P x y) xs) ys.
Proof.
  intro H. apply Forall_forall. intros y Hy.
  eapply Forall_impl; [| exact H].
  intros x Hx. cbv beta in Hx. rewrite Forall_forall in Hx. exact (Hx y Hy).
Qed.

Lemma measure_forEach data columns ws ws' :
  columns <> [] ->
  measure data columns ws = Ok ws' ->
  exists rows, forEach data = Ok rows.
Proof.
  destruct columns as [| c rest]; [congruence |]. intros _ H.
  cbn [measure] in H.
  destruct (forEach data) as [rows | e]; [| discriminate].
  exists rows. reflexivity.
Qed.

(** [printTable] throws before it prints anything, or prints the notice,
    or prints the whole table. *)
Lemma printTable_cases env data columns w :
  well_formed columns ->
  columns <> [] ->
  (exists e, printTable env data columns w = (Throw e, w))
  \/ (printTable env data columns w
      = (Ret tt, written (chalk env yellow no_results) w)
      /\ (forall rows, data = JArr rows -> rows = []))
  \/ (exists rows header lines,
        data = JArr rows
        /\ rows <> []
        /\ printTable env data columns w
           = (Ret tt,
              written_all
                (chalk env bold (chalk env cyan header)
                 :: chalk env dim
                      (repeat_string box_line (String.length header))
                 :: lines
                 ++ [chalk env dim
                       (newline ++ nat_to_string (List.length rows)
                          ++ " result(s)")])%list
                w)
        /\ List.length lines = List.length rows
        /\ Forall (fun line => String.length line = String.length header)
             lines
        /\ String.length header <= 42 * List.length columns).
Proof.
  intros Hwf Hne. unfold printTable.
  destruct (negb (truthy data) || length_is_zero data) eqn:E.
  - right. left. split; [reflexivity |].
    intros rows ->. cbn in E.
    destruct rows; [reflexivity | discriminate].
  - unfold bind at 1.
    destruct (measure data columns []) as [ws | e] eqn:Hm; cbn [lift];
      [| left; exists e; reflexivity].
    right. right.
    destruct (measure_forEach _ _ _ _ Hne Hm) as [rows Hrows].
    destruct (measure_widths _ _ _ _ Hwf Hm) as (_ & Hbounds & Hcells).
    specialize (Hcells rows Hrows). apply Forall_transpose in Hcells.
    assert (Hdata : data = JArr rows)
      by (destruct data; cbn in Hrows; congruence).
    set (header :=
           join "  " (map (fun c => padEnd (width_of ws (key c)) (label c))
                          columns)).
    assert (Hlines :
              Forall (fun row =>
                        exists line,
                          row_line columns ws row = Ok line
                          /\ String.length line = String.length header)
                rows).
    { eapply Forall_impl; [| exact Hcells]. intros row Hrow.
      apply row_line_length; [| exact Hrow].
      eapply Forall_impl; [| exact Hbounds]. intros c Hc. cbv beta in Hc.
      lia. }
    destruct (print_rows_lines columns ws rows (String.length header)
                (written (chalk env dim
                            (repeat_string box_line (String.length header)))
                   (written (chalk env bold (chalk env cyan header)) w))
                Hlines) as (lines & Hrun & Hcount & Hall).
    exists rows, header, lines.
    split; [exact Hdata |]. split.
    { intros ->. subst data. cbn in E. discriminate. }
    split.
    { unfold bind. cbn [console_log ret]. rewrite Hrows. cbn [lift ret].
      fold header. rewrite Hrun. cbn [console_log]. f_equal.
      change (chalk env bold (chalk env cyan header)
              :: chalk env dim (repeat_string box_line (String.length header))
              :: lines ++ [chalk env dim
                             (newline ++ nat_to_string (List.length rows)
                                ++ " result(s)")])%list
        with ([chalk env bold (chalk env cyan header);
               chalk env dim (repeat_string box_line (String.length header))]
              ++ lines
              ++ [chalk env dim
                    (newline ++ nat_to_string (List.length rows)
                       ++ " result(s)")])%list.
      rewrite !written_all_app. reflexivity. }
    split; [exact Hcount |]. split; [exact Hall |].
    unfold header. rewrite length_join, length_map.
    assert (Hsum :
              list_sum (map String.length
                          (map (fun c => padEnd (width_of ws (key c))
                                           (label c)) columns))
              <= 40 * List.length columns).
    { rewrite map_map.
      pose proof (list_sum_bound
                    (map (fun c => String.length
                                     (padEnd (width_of ws (key c)) (label c)))
                         columns) 40) as H40.
      rewrite length_map in H40. apply H40.
      apply Forall_map. eapply Forall_impl; [| exact Hbounds].
      intros c Hc. cbv beta in Hc. rewrite length_padEnd. lia. }
    cbn [String.length]. lia.
Qed.

Lemma columns_well_formed c :
  is_list c = true -> well_formed (columns c) /\ columns c <> [].
Proof.
  intro Hc. split; [split |].
  - destruct c; try discriminate; cbn [columns map key col colf];
      repeat (apply NoDup_cons; [cbn [In]; intuition discriminate |]);
      apply NoDup_nil.
  - destruct c; try discriminate; cbn [columns];
      repeat (apply Forall_cons; [cbn; lia |]); apply Forall_nil.
  - destruct c; discriminate.
Qed.

End TableOutput.

Lemma stderr_written_all lines w : stderr (written_all lines w) = stderr w.
Proof.
  unfold written_all. revert w.
  induction lines as [| line rest IH]; intro w; cbn;
    [| rewrite IH]; reflexivity.
Qed.

(** X19.  A list subcommand in table mode never leaves half a table: with
    a stored token, a run that has ended has status 0 or 1; with status 1
    it has left nothing at all on the output stream, neither a header nor
    a row printed before the failure, and with status 0 it has left
    something there. *)
Theorem table_is_all_or_nothing env c config :
  is_list c = true ->
  json_flag_of c = false ->
  Config.accessToken config <> "" ->
  (fst (run env c config) = 1%Z -> stdout (snd (run env c config)) = [])
  /\ (fst (run env c config) = 0%Z -> stdout (snd (run env c config)) <> [])
  /\ (fst (run env c config) = 0%Z \/ fst (run env c config) = 1%Z).
Proof.
  intros Hc Hj Ht.
  assert (H : (fst (run env c config) = 0%Z
               /\ stdout (snd (run env c config)) <> [])
              \/ (fst (run env c config) = 1%Z
                  /\ stdout (snd (run env c config)) = [])).
  { unfold run.
    destruct (action_run env c config (is_list_is_read c Hc) Ht)
      as (render & Hl & _ & _ & _ & Hrun).
    destruct (columns_well_formed c Hc) as [Hwf Hne].
    rewrite Hrun, Hj, (Hl Hc). cbv zeta.
    destruct (answer env (Config.accessToken config) c) as [x | e].
    - unfold try_catch.
      destruct (printTable_cases env x (columns c)
                  (spun SpinStop
                     (in_flight (Config.accessToken config) c (start config)))
                  Hwf Hne)
        as [[e ->] | [[-> _] | (rows & header & lines & _ & _ & -> & _)]].
      + right. split; reflexivity.
      + left. split; [reflexivity | discriminate].
      + left. cbv beta iota. cbn [fst snd exit_status].
        split; [reflexivity |].
        rewrite stdout_written_all. discriminate.
    - right. split; reflexivity. }
  destruct H as [[H0 Hs] | [H1 Hs]].
  - rewrite H0. split; [discriminate |]. split; [intros _; exact Hs |].
    left. reflexivity.
  - rewrite H1. split; [intros _; exact Hs |]. split; [discriminate |].
    right. reflexivity.
Qed.

Lemma table_is_all_or_nothing_witness :
  is_list (TransactionsList None None false) = true
  /\ json_flag_of (TransactionsList None None false) = false
  /\ Config.accessToken Demo.fresh <> ""
  /\ fst (run (Demo.env (Demo.ok (Demo.enveloped "Transaction"
                                    (JArr [booked; JNull]))))
            (TransactionsList None None false) Demo.fresh) = 1%Z
  /\ stdout (snd (run (Demo.env (Demo.ok (Demo.enveloped "Transaction"
                                            (JArr [booked; JNull]))))
                    (TransactionsList None None false) Demo.fresh))
     = [].
Proof.
  split; [reflexivity |]. split; [reflexivity |]. split; [discriminate |].
  split; [reflexivity |].
  apply (table_is_all_or_nothing
           (Demo.env (Demo.ok (Demo.enveloped "Transaction"
                                 (JArr [booked; JNull]))))
           (TransactionsList None None false) Demo.fresh).
  - reflexivity.
  - reflexivity.
  - discriminate.
  - reflexivity.
Defined.

(** X20.  A table that is printed is aligned: for a non-empty array the
    output is the header, a rule as long as the header, one line for each
    element and the count of results; every line is exactly as long as the
    header, and the header is at most 42 characters per column long (a
    column is cut at 40). *)
Theorem table_is_aligned env c config rows :
  is_list c = true ->
  json_flag_of c = false ->
  Config.accessToken config <> "" ->
  answer env (Config.accessToken config) c = Ok (JArr rows) ->
  rows <> [] ->
  fst (run env c config) = 0%Z ->
  exists header lines,
    stdout (snd (run env c config))
    = (chalk env bold (chalk env cyan header)
       :: chalk env dim (repeat_string box_line (String.length header))
       :: lines
       ++ [chalk env dim
             (newline ++ nat_to_string (List.length rows)
                ++ " result(s)")])%list
    /\ List.length lines = List.length rows
    /\ Forall (fun line => String.length line = String.length header) lines
    /\ (String.length header <= 42 * List.length (columns c))%nat.
Proof.
  intros Hc Hj Ht Hx Hrows. unfold run.
  destruct (action_run env c config (is_list_is_read c Hc) Ht)
    as (render & Hl & _ & _ & _ & Hrun).
  destruct (columns_well_formed c Hc) as [Hwf Hne].
  rewrite Hrun, Hj, (Hl Hc), Hx. cbv zeta. unfold try_catch.
  destruct (printTable_cases env (JArr rows) (columns c)
              (spun SpinStop
                 (in_flight (Config.accessToken config) c (start config)))
              Hwf Hne)
    as [[e ->]
       | [[_ Hempty]
         | (rows' & header & lines & Hd & _ & -> & Hn & Hall & Hb)]].
  - cbn. discriminate.
  - specialize (Hempty rows eq_refl). contradiction.
  - intros _. injection Hd as <-. exists header, lines.
    cbv beta iota. cbn [snd]. rewrite stdout_written_all.
    repeat split; assumption.
Qed.

Lemma table_is_aligned_witness :
  is_list (TransactionsList None None false) = true
  /\ json_flag_of (TransactionsList None None false) = false
  /\ Config.accessToken Demo.fresh <> ""
  /\ [booked; pending] <> []
  /\ exists header lines,
       stdout (snd (run (Demo.env (Demo.ok (Demo.enveloped "Transaction"
                                              (JArr [booked; pending]))))
                      (TransactionsList None None false) Demo.fresh))
       = (header
          :: repeat_string box_line (String.length header)
          :: lines
          ++ [(newline ++ nat_to_string (List.length [booked; pending])
                 ++ " result(s)")%string])%list
       /\ List.length lines = List.length [booked; pending]
       /\ Forall (fun line => String.length line = String.length header)
            lines
       /\ (String.length header
           <= 42 * List.length (columns (TransactionsList None None false)))%nat.
Proof.
  split; [reflexivity |]. split; [reflexivity |]. split; [discriminate |].
  split; [discriminate |].
  apply (table_is_aligned
           (Demo.env (Demo.ok (Demo.enveloped "Transaction"
                                 (JArr [booked; pending]))))
           (TransactionsList None None false) Demo.fresh
           [booked; pending]).
  - reflexivity.
  - reflexivity.
  - discriminate.
  - reflexivity.
  - discriminate.
  - reflexivity.
Defined.

(* ================================================================== *)
(** * The details of a singular lookup, further *)
(* ================================================================== *)

Lemma or_else_falsy a b : vtruthy a = false -> or_else a b = b.
Proof.
  destruct a as [j |]; cbn; [| reflexivity].
  intros ->. reflexivity.
Qed.

(** The lines of the details, read off the world the run ends in. *)
Ltac details_lines :=
  cbn [first_field id_line optional_lines fst snd];
  split;
  [ let H := fresh in
    intro H; rewrite (or_else_falsy _ _ H); reflexivity
  | split;
    [ repeat (apply Forall_cons;
              [ let H := fresh in
                cbn [fst snd]; intro H; rewrite (or_else_falsy _ _ H);
                reflexivity
              | ]);
      apply Forall_nil
    | ] ].


